(** * scan-score-shine: OMR scoring, answer-key management, analytics, export

  A shallow embedding of the TypeScript sources
    - [src/components/OMRUpload.tsx]        ([simulateOMRProcessing],
                                             [handleFiles], [uploadFiles])
    - [src/components/AnswerKeyManager.tsx] ([openDialog],
                                             [generateRandomAnswers],
                                             [saveAnswerKey], the range inputs,
                                             [loadAnalyticsData])
    - [src/components/OMRDashboard.tsx]     ([loadDashboardData])
    - the results table component           ([loadSheets], [exportToCSV])
  and the properties of the specification stated over it, followed by
  further properties of the sources.

  Number model.  A JavaScript [number] that holds a count or an index is
  a [Z]; every other [number] is an exact rational [Qc].  The arithmetic
  of the sources is IEEE-754 binary64; the rounding error of [+], [*] and
  [/] on doubles is outside this model, every statement below is about
  the exact value of the expressions.

  Records ([Record<string, T>] and JSON objects used as dictionaries) are
  finite maps [gmap string T]: two records are equal when they hold the
  same value under every key. *)

From Stdlib Require Import ZArith QArith Qcanon Qround Lia Lqa Ascii String.
From stdpp Require Import base numbers list strings pretty gmap fin_maps.

Local Open Scope Z_scope.

(** ** JavaScript primitives used by the sources *)

Module JS.

(** A numeric literal or an integer seen as a [number]. *)
Definition num (z : Z) : Qc := Qc_of_Z z.

(** [Math.floor] *)
Definition Math_floor (x : Qc) : Z := Qfloor x.

(** [Math.round]: nearest integer, halves towards plus infinity. *)
Definition Math_round (x : Qc) : Z := Qfloor (x + num 1 / num 2)%Qc.

(** [arr[i]]: reading outside the array gives [undefined] ([None]). *)
Definition idx {A} (arr : list A) (i : Z) : option A :=
  if i <? 0 then None else arr !! Z.to_nat i.

(** [a === b] on values that are a number or [undefined]. *)
Definition strict_eq (a b : option Z) : bool := bool_decide (a = b).

(** [x.toFixed(2)].  ECMAScript: for [x < 0] the sign is printed and [x]
    replaced by [-x]; then "let n be an integer for which n / 10^f - x is
    as close to zero as possible; if there are two such n, pick the
    larger n".  The result is the decimal string of [n / 100] with that
    sign; [toFixed2] returns the signed [n]. *)
Definition toFixed2_magnitude (x : Qc) : Z :=
  let y := (x * num 100)%Qc in
  let lo := Qfloor y in
  let hi := lo + 1 in
  if decide (y - num lo < num hi - y)%Qc then lo else hi.

Definition toFixed2 (x : Qc) : Z :=
  if decide (x < 0)%Qc then - toFixed2_magnitude (- x)%Qc
  else toFixed2_magnitude x.

(** [Number(s)] for the string printed by [toFixed(2)]. *)
Definition Number_of_fixed2 (n : Z) : Qc := (num n / num 100)%Qc.

End JS.

(** ** Rows of the relational store *)

(** [{ start: number; end: number }], 1-based and inclusive. *)
Record Range := { start : Z; end_ : Z }.

Module AnswerKey.
Record t := {
  id : string;
  name : string;
  version : string;
  subject_breakdown : gmap string Range;
  answers : list Z;
  total_questions : Z;
  max_score : Z
}.
End AnswerKey.

Module OmrResult.
(** The object passed to [supabase.from('omr_results').insert]. *)
Record t := {
  sheet_id : string;
  answer_key_id : string;
  detected_answers : list Z;
  subject_scores : gmap string Z;
  total_score : Z;
  max_score : Z;
  percentage : Qc;
  correct_answers : Z;
  incorrect_answers : Z;
  unanswered : Z;
  confidence_score : Qc;
  processing_time : Z
}.
End OmrResult.

(** ** OMRUpload.tsx: [simulateOMRProcessing] *)

Module OMRUpload.

(** *** The random-number generator

    [Math.random()] reads the next element of a stream of draws; a
    computation that draws is a function of the position in the stream. *)
Definition Rand (A : Type) : Type := nat → A * nat.

#[export] Instance Rand_ret : MRet Rand := λ A a pos, (a, pos).
#[export] Instance Rand_bind : MBind Rand :=
  λ A B k m pos, let '(a, pos') := m pos in k a pos'.

Definition Math_random (draws : nat → Qc) : Rand Qc :=
  λ pos, (draws pos, S pos).

(** [Array.from({ length: n }, f)] calls [f] for the indices in order. *)
Fixpoint Array_from {A} (n : nat) (f : Rand A) : Rand (list A) :=
  match n with
  | O => mret []
  | S n' => a ← f ; rest ← Array_from n' f ; mret (a :: rest)
  end.

(** [Math.random() > 0.1 ? Math.floor(Math.random() * 4) + 1 : 0] *)
Definition randomAnswer (draws : nat → Qc) : Rand Z :=
  r ← Math_random draws ;
  if decide (JS.num 1 / JS.num 10 < r)%Qc
  then r' ← Math_random draws ; mret (JS.Math_floor (r' * JS.num 4)%Qc + 1)
  else mret 0.

Definition generateDetectedAnswers (draws : nat → Qc) : Rand (list Z) :=
  Array_from 100 (randomAnswer draws).

(** *** Scoring: the [forEach] over the detected answers *)

Record Tally := { correct : Z; incorrect : Z; unanswered : Z }.

Definition tallyStep (correctAnswers : list Z) (t : Tally)
    (answer : Z) (index : nat) : Tally :=
  if answer =? 0 then
    {| correct := correct t; incorrect := incorrect t;
       unanswered := unanswered t + 1 |}
  else if JS.strict_eq (Some answer) (JS.idx correctAnswers (Z.of_nat index)) then
    {| correct := correct t + 1; incorrect := incorrect t;
       unanswered := unanswered t |}
  else
    {| correct := correct t; incorrect := incorrect t + 1;
       unanswered := unanswered t |}.

(** [arr.forEach((x, index) => ...)] threading the captured variables. *)
Fixpoint forEach {A S} (f : S → A → nat → S) (arr : list A)
    (index : nat) (s : S) : S :=
  match arr with
  | [] => s
  | x :: rest => forEach f rest (Datatypes.S index) (f s x index)
  end.

Definition scoreAnswers (detectedAnswers correctAnswers : list Z) : Tally :=
  forEach (tallyStep correctAnswers) detectedAnswers 0%nat
    {| correct := 0; incorrect := 0; unanswered := 0 |}.

(** *** Subject scores

    [for (let i = start; i <= end; i++) if (detectedAnswers[i] ===
    correctAnswers[i]) subjectCorrect++], run for the [end - start + 1]
    iterations the loop makes (none when [end < start]). *)
Fixpoint countMatches (detectedAnswers correctAnswers : list Z)
    (iterations : nat) (i : Z) (subjectCorrect : Z) : Z :=
  match iterations with
  | O => subjectCorrect
  | Datatypes.S n =>
      countMatches detectedAnswers correctAnswers n (i + 1)
        (if JS.strict_eq (JS.idx detectedAnswers i) (JS.idx correctAnswers i)
         then subjectCorrect + 1 else subjectCorrect)
  end.

Definition subjectCorrectOf (detectedAnswers correctAnswers : list Z)
    (range : Range) : Z :=
  let start := start range - 1 in
  let end' := end_ range - 1 in
  countMatches detectedAnswers correctAnswers
    (Z.to_nat (end' - start + 1)) start 0.

(** [for (const [subject, range] of Object.entries(subjectBreakdown))
    subjectScores[subject] = subjectCorrect] *)
Definition subjectScoresOf (detectedAnswers correctAnswers : list Z)
    (subjectBreakdown : gmap string Range) : gmap string Z :=
  foldl (λ subjectScores entry,
           <[entry.1 := subjectCorrectOf detectedAnswers correctAnswers entry.2]>
             subjectScores)
        ∅ (map_to_list subjectBreakdown).

(** *** Percentage *)
Definition percentageOf (totalScore : Z) (answerKey : AnswerKey.t) : Qc :=
  let percentage :=
    (JS.num totalScore / JS.num (AnswerKey.total_questions answerKey)
     * JS.num 100)%Qc in
  JS.Number_of_fixed2 (JS.toFixed2 percentage).

(** *** The writes issued to the store *)
Inductive Write :=
| InsertResult (row : OmrResult.t)
| UpdateSheetStatus (sheetId : string) (status : string).

(** [.from('answer_keys').select('*').eq('version', v).limit(1)] *)
Definition selectAnswerKeys (table : list AnswerKey.t) (selectedVersion : string)
    : list AnswerKey.t :=
  take 1 (filter (λ k, AnswerKey.version k = selectedVersion) table).

Definition simulateOMRProcessing (draws : nat → Qc)
    (table : list AnswerKey.t) (selectedVersion : string) (sheetId : string)
    : Rand (list Write) :=
  match selectAnswerKeys table selectedVersion with
  | [] => mret []
  | answerKey :: _ =>
      detectedAnswers ← generateDetectedAnswers draws ;
      let correctAnswers := AnswerKey.answers answerKey in
      let t := scoreAnswers detectedAnswers correctAnswers in
      let subjectScores :=
        subjectScoresOf detectedAnswers correctAnswers
          (AnswerKey.subject_breakdown answerKey) in
      let totalScore := correct t in
      confidence ← Math_random draws ;
      time ← Math_random draws ;
      mret [ InsertResult
              {| OmrResult.sheet_id := sheetId;
                 OmrResult.answer_key_id := AnswerKey.id answerKey;
                 OmrResult.detected_answers := detectedAnswers;
                 OmrResult.subject_scores := subjectScores;
                 OmrResult.total_score := totalScore;
                 OmrResult.max_score := AnswerKey.max_score answerKey;
                 OmrResult.percentage := percentageOf totalScore answerKey;
                 OmrResult.correct_answers := correct t;
                 OmrResult.incorrect_answers := incorrect t;
                 OmrResult.unanswered := unanswered t;
                 OmrResult.confidence_score :=
                   (confidence * JS.num 20 + JS.num 80)%Qc;
                 OmrResult.processing_time :=
                   JS.Math_floor (time * JS.num 5000)%Qc + 1000 |};
            UpdateSheetStatus sheetId "completed" ]
  end.

(** The row given to [insert], when the run reaches it. *)
Definition insertedRow (writes : list Write) : option OmrResult.t :=
  match writes with
  | InsertResult row :: _ => Some row
  | _ => None
  end.

End OMRUpload.

(** ** Scorer: the classification of the specification *)

Module Scorer.

Inductive Verdict := Unanswered | Correct | Incorrect.

#[export] Instance Verdict_eq_dec : EqDecision Verdict.
Proof. solve_decision. Defined.

(** "if detectedAnswers[i] == 0: classify unanswered; else if
    detectedAnswers[i] == key.answers[i]: classify correct; else:
    classify incorrect." *)
Definition classify (detected keyAnswer : Z) : Verdict :=
  if decide (detected = 0) then Unanswered
  else if decide (detected = keyAnswer) then Correct
  else Incorrect.

(** The verdict of every question, in question order. *)
Definition verdicts (detectedAnswers keyAnswers : list Z) : list Verdict :=
  zip_with classify detectedAnswers keyAnswers.

Definition countVerdict (v : Verdict) (vs : list Verdict) : Z :=
  Z.of_nat (length (filter (λ w, w = v) vs)).



End Scorer.

(** The option indices of the answer sheet: [1..4]. *)
Definition numOptions : Z := 4.

(** "rounded to 2 decimal places using round-half-away-from-zero": the
    nearest multiple of [1/100], a value halfway between two of them going
    to the one farther from zero. *)
Definition roundHalfAwayFromZero2 (x : Qc) : Qc :=
  let y := (x * JS.num 100)%Qc in
  let n := if decide (0 ≤ y)%Qc
           then Qfloor (y + JS.num 1 / JS.num 2)%Qc
           else Qceiling (y - JS.num 1 / JS.num 2)%Qc in
  (JS.num n / JS.num 100)%Qc.

(** ** Strings: [split], [trim], [parseInt] *)

Module JSString.

(** White space and line terminators among the code units below 256. *)
Definition isWhiteSpace (c : ascii) : bool :=
  let n := nat_of_ascii c in
  ((9 <=? n) && (n <=? 13) || (n =? 32) || (n =? 160))%nat.

(** [s.split(sep)] for a one-character separator. *)
Fixpoint split (sep : ascii) (s : string) : list string :=
  match s with
  | EmptyString => [EmptyString]
  | String c rest =>
      if Ascii.eqb c sep then EmptyString :: split sep rest
      else match split sep rest with
           | [] => [String c EmptyString]
           | piece :: pieces => String c piece :: pieces
           end
  end.

Fixpoint trimStart (s : string) : string :=
  match s with
  | EmptyString => EmptyString
  | String c rest => if isWhiteSpace c then trimStart rest else s
  end.

Fixpoint trimEnd (s : string) : string :=
  match s with
  | EmptyString => EmptyString
  | String c rest =>
      match trimEnd rest with
      | EmptyString => if isWhiteSpace c then EmptyString else String c EmptyString
      | rest' => String c rest'
      end
  end.

Definition trim (s : string) : string := trimEnd (trimStart s).

(** The value of a digit in radix 10 or 16. *)
Definition digitValue (radix : Z) (c : ascii) : option Z :=
  let n := Z.of_nat (nat_of_ascii c) in
  if (48 <=? n) && (n <=? 57) then Some (n - 48)
  else if (radix =? 16) && (97 <=? n) && (n <=? 102) then Some (n - 87)
  else if (radix =? 16) && (65 <=? n) && (n <=? 70) then Some (n - 55)
  else None.

(** The longest prefix of digits, read as a number; [None] when it is empty. *)
Fixpoint readDigits (radix : Z) (s : string) (acc : option Z) : option Z :=
  match s with
  | EmptyString => acc
  | String c rest =>
      match digitValue radix c with
      | Some d => readDigits radix rest (Some (default 0 acc * radix + d))
      | None => acc
      end
  end.

(** [parseInt(s)] without a radix; [None] is [NaN]. *)
Definition parseInt (s : string) : option Z :=
  let s1 := trimStart s in
  let '(sign, s2) :=
    match s1 with
    | String "-"%char rest => (-1, rest)
    | String "+"%char rest => (1, rest)
    | _ => (1, s1)
    end in
  let '(radix, s3) :=
    match s2 with
    | String "0"%char (String "x"%char rest)
    | String "0"%char (String "X"%char rest) => (16, rest)
    | _ => (10, s2)
    end in
  (λ n, sign * n) <$> readDigits radix s3 None.

End JSString.

(** ** AnswerKeyManager.tsx: [saveAnswerKey] *)

Module FormData.
Record t := {
  name : string;
  version : string;
  answersText : string;
  subjectBreakdown : gmap string Range
}.
End FormData.

Module KeyData.
Record t := {
  name : string;
  version : string;
  subject_breakdown : gmap string Range;
  answers : list Z;
  total_questions : Z;
  max_score : Z
}.
End KeyData.

Module AnswerKeyManager.

(** What a call of [saveAnswerKey] does, in order. *)
Inductive Effect :=
| Toast (title description : string) (destructive : bool)
| UpdateAnswerKey (keyData : KeyData.t) (id : string)
| InsertAnswerKey (keyData : KeyData.t)
| ConsoleError
| CloseDialog
| LoadAnswerKeys
| OnUpdate.

(** [formData.answersText.split(',').map(a => parseInt(a.trim()))
     .filter(a => !isNaN(a))] *)
Definition parseAnswers (answersText : string) : list Z :=
  omap (λ a, JSString.parseInt (JSString.trim a)) (JSString.split ","%char answersText).

(** [!s] for a string. *)
Definition isEmpty (s : string) : bool := bool_decide (s = EmptyString).

(** [saveAnswerKey]; [dbError] is the [error] of the reply of the store to
    the update or insert, when it replies with one. *)
Definition saveAnswerKey (formData : FormData.t) (editingKey : option AnswerKey.t)
    (dbError : option string) : list Effect :=
  if isEmpty (FormData.name formData) || isEmpty (FormData.version formData)
     || isEmpty (FormData.answersText formData)
  then [Toast "Validation Error" "Please fill in all required fields" true]
  else
    let answers := parseAnswers (FormData.answersText formData) in
    if negb (length answers =? 100)%nat
    then [Toast "Validation Error"
            "Please provide exactly 100 answers (1-4 for each question)" true]
    else if existsb (λ a, (a <? 1) || (a >? 4)) answers
    then [Toast "Validation Error" "All answers must be between 1 and 4" true]
    else
      let keyData :=
        {| KeyData.name := FormData.name formData;
           KeyData.version := FormData.version formData;
           KeyData.subject_breakdown := FormData.subjectBreakdown formData;
           KeyData.answers := answers;
           KeyData.total_questions := 100;
           KeyData.max_score := 100 |} in
      let write :=
        match editingKey with
        | Some key => UpdateAnswerKey keyData (AnswerKey.id key)
        | None => InsertAnswerKey keyData
        end in
      match dbError with
      | Some message =>
          [write; ConsoleError;
           Toast "Error"
             (if isEmpty message then "Failed to save answer key" else message) true]
      | None =>
          [write;
           Toast "Success"
             (match editingKey with
              | Some _ => "Answer key updated successfully"
              | None => "Answer key created successfully"
              end) false;
           CloseDialog; LoadAnswerKeys; OnUpdate]
      end.

(** The effects that change the [answer_keys] table. *)
Definition persists (e : Effect) : bool :=
  match e with
  | UpdateAnswerKey _ _ | InsertAnswerKey _ => true
  | _ => false
  end.

End AnswerKeyManager.

(** ** AnswerKey validation: the notions of the specification *)

Module Validation.

Definition inRange (q : Z) (range : Range) : Prop :=
  start range ≤ q ≤ end_ range.

(** Two subjects claim the same question. *)
Definition rangesOverlap (breakdown : gmap string Range) : Prop :=
  ∃ s1 s2 r1 r2 q,
    s1 ≠ s2 ∧ breakdown !! s1 = Some r1 ∧ breakdown !! s2 = Some r2
    ∧ inRange q r1 ∧ inRange q r2.

(** A question of [1..totalQuestions] belongs to no subject. *)
Definition rangesLeaveGap (breakdown : gmap string Range) (totalQuestions : Z) : Prop :=
  ∃ q, 1 ≤ q ≤ totalQuestions
       ∧ ∀ s r, breakdown !! s = Some r → ¬ inRange q r.

End Validation.

(** ** The analytics component: [loadAnalyticsData] *)

(** A row of [omr_results] joined with [omr_sheets (sheet_version,
    created_at)].  [created_at] is the instant the timestamp denotes. *)
Module ResultRow.
Record t := {
  percentage : Qc;
  subject_scores : gmap string Qc;
  sheet_version : string;
  created_at : Z
}.
End ResultRow.

(** The calendar of the browser: what [Date] does with an instant. *)
Module DateEnv.
Record t := {
  (** [d.toISOString().split('T')[0]] *)
  toISODate : Z → string;
  (** [d.setDate(d.getDate() - i)] *)
  minusDays : Z → Z → Z;
  (** [d.toLocaleDateString('en-US', { month: 'short', day: 'numeric' })] *)
  toLocaleDateString : Z → string
}.
End DateEnv.

Module OMRAnalytics.

Record Performance := { average : Qc; count : Z }.

Record Trend := { date : string; trendAverageScore : Z; trendCount : Z }.

Record AnalyticsData := {
  totalStudents : Z;
  averageScore : Z;
  highestScore : Z;
  lowestScore : Z;
  subjectPerformance : gmap string Performance;
  versionPerformance : gmap string Performance;
  scoreDistribution : list (string * Z);
  recentTrends : list Trend
}.

(** [xs.reduce((sum, x) => sum + x, 0)] *)
Definition sum (xs : list Qc) : Qc := foldl Qcplus 0%Qc xs.

Definition max2 (x y : Qc) : Qc := if decide (x ≤ y)%Qc then y else x.
Definition min2 (x y : Qc) : Qc := if decide (x ≤ y)%Qc then x else y.

(** [Math.max(x, ...xs)] and [Math.min(x, ...xs)] *)
Definition Math_max (x : Qc) (xs : list Qc) : Qc := foldl max2 x xs.
Definition Math_min (x : Qc) (xs : list Qc) : Qc := foldl min2 x xs.

(** The running [{ total, count }] kept under each key. *)
Record Running := { total : Qc; runningCount : Z }.

(** [if (!acc[key]) acc[key] = { total: 0, count: 0 };
     acc[key].total += x; acc[key].count += 1] *)
Definition accumulate (key : string) (x : Qc) (acc : gmap string Running)
    : gmap string Running :=
  let current := default {| total := 0%Qc; runningCount := 0 |} (acc !! key) in
  <[key := {| total := (total current + x)%Qc;
              runningCount := runningCount current + 1 |}]> acc.

Definition accumulateEntries (entries : list (string * Qc))
    (acc : gmap string Running) : gmap string Running :=
  foldl (λ acc' entry, accumulate entry.1 entry.2 acc') acc entries.

(** [Object.fromEntries(Object.entries(acc).map(([k, data]) =>
     [k, { average: data.total / data.count, count: data.count }]))] *)
Definition averages (acc : gmap string Running) : gmap string Performance :=
  (λ data, {| average := (total data / JS.num (runningCount data))%Qc;
              count := runningCount data |}) <$> acc.

Definition subjectTotals (results : list ResultRow.t) : gmap string Running :=
  foldl (λ acc result,
           accumulateEntries (map_to_list (ResultRow.subject_scores result)) acc)
        ∅ results.

Definition versionTotals (results : list ResultRow.t) : gmap string Running :=
  foldl (λ acc result,
           accumulate (ResultRow.sheet_version result)
                      (ResultRow.percentage result) acc)
        ∅ results.

Definition scoreRanges : list (string * Z * Z) :=
  [ ("90-100%", 90, 100); ("80-89%", 80, 89); ("70-79%", 70, 79);
    ("60-69%", 60, 69); ("50-59%", 50, 59); ("0-49%", 0, 49) ].

Definition distribution (scores : list Qc) : list (string * Z) :=
  (λ '(range, min, max),
     (range,
      Z.of_nat (length (filter
        (λ score, (JS.num min ≤ score)%Qc ∧ (score ≤ JS.num max)%Qc) scores))))
  <$> scoreRanges.

(** One pass of the loop [for (let i = 6; i >= 0; i--)]. *)
Definition trendOfDay (env : DateEnv.t) (today : Z) (results : list ResultRow.t)
    (i : Z) : Trend :=
  let date := DateEnv.minusDays env today i in
  let dateString := DateEnv.toISODate env date in
  let dayResults :=
    filter (λ result,
              DateEnv.toISODate env (ResultRow.created_at result) = dateString)
           results in
  let dayAverage :=
    if (0 <? length dayResults)%nat
    then (sum (ResultRow.percentage <$> dayResults)
          / JS.num (Z.of_nat (length dayResults)))%Qc
    else 0%Qc in
  {| date := DateEnv.toLocaleDateString env date;
     trendAverageScore := JS.Math_round dayAverage;
     trendCount := Z.of_nat (length dayResults) |}.

Definition trends (env : DateEnv.t) (today : Z) (results : list ResultRow.t)
    : list Trend :=
  trendOfDay env today results <$> [6; 5; 4; 3; 2; 1; 0].

(** The value given to [setAnalyticsData] for the rows the query returned
    ([results] is [[]] also when the query returned [null]). *)
Definition analyticsOf (env : DateEnv.t) (today : Z) (results : list ResultRow.t)
    : AnalyticsData :=
  match results with
  | [] =>
      {| totalStudents := 0; averageScore := 0; highestScore := 0;
         lowestScore := 0; subjectPerformance := ∅; versionPerformance := ∅;
         scoreDistribution := []; recentTrends := [] |}
  | first :: others =>
      let scores := ResultRow.percentage <$> results in
      let totalStudents := Z.of_nat (length results) in
      let averageScore := (sum scores / JS.num totalStudents)%Qc in
      let highestScore :=
        Math_max (ResultRow.percentage first) (ResultRow.percentage <$> others) in
      let lowestScore :=
        Math_min (ResultRow.percentage first) (ResultRow.percentage <$> others) in
      {| totalStudents := totalStudents;
         averageScore := JS.Math_round averageScore;
         highestScore := JS.Math_round highestScore;
         lowestScore := JS.Math_round lowestScore;
         subjectPerformance := averages (subjectTotals results);
         versionPerformance := averages (versionTotals results);
         scoreDistribution := distribution scores;
         recentTrends := trends env today results |}
  end.

(** [loadAnalyticsData]: [None] when the query fails (the state keeps its
    value and an error toast is shown). *)
Definition loadAnalyticsData (env : DateEnv.t) (today : Z)
    (resultsError : option string) (results : option (list ResultRow.t))
    : option AnalyticsData :=
  match resultsError with
  | Some _ => None
  | None => Some (analyticsOf env today (default [] results))
  end.

(** The number of results counted by the histogram. *)
Definition distributionTotal (d : list (string * Z)) : Z :=
  foldr (λ entry n, entry.2 + n) 0 d.

End OMRAnalytics.

(** ** The results table: [exportToCSV] *)

Module SheetResult.
Record t := {
  total_score : Z;
  max_score : Z;
  percentage : Qc;
  subject_scores : gmap string Z;
  correct_answers : Z;
  incorrect_answers : Z;
  unanswered : Z;
  confidence_score : Qc
}.
End SheetResult.

Module OMRSheet.
Record t := {
  id : string;
  student_name : option string;
  student_id : option string;
  roll_number : option string;
  sheet_version : string;
  original_filename : string;
  status : string;
  created_at : Z;
  result : option SheetResult.t
}.
End OMRSheet.

Module OMRResults.

(** A cell of the table: a number or a string. *)
Inductive Cell := CellNumber (n : Qc) | CellString (s : string).

(** [x || ''] for a number that may be missing: [undefined] and [0] are
    falsy. *)
Definition numberOrEmpty (x : option Qc) : Cell :=
  match x with
  | Some n => if decide (n = 0%Qc) then CellString "" else CellNumber n
  | None => CellString ""
  end.

(** [s || ''] for a string that may be [null]. *)
Definition stringOrEmpty (x : option string) : Cell :=
  match x with
  | Some s => CellString s
  | None => CellString ""
  end.

Definition headers : list string :=
  [ "Student Name"; "Student ID"; "Roll Number"; "Version"; "Status";
    "Total Score"; "Percentage"; "English"; "Math"; "Science"; "Social";
    "Hindi"; "Correct"; "Incorrect"; "Unanswered"; "Confidence";
    "Upload Date" ].

(** [sheet.result?.subject_scores?.[subject]] *)
Definition subjectScore (sheet : OMRSheet.t) (subject : string) : option Qc :=
  r ← OMRSheet.result sheet;
  JS.num <$> SheetResult.subject_scores r !! subject.

(** One row of [csvData]; [dateOf] is
    [new Date(created_at).toLocaleDateString()]. *)
Definition csvRow (dateOf : Z → string) (sheet : OMRSheet.t) : list Cell :=
  let result := OMRSheet.result sheet in
  [ stringOrEmpty (OMRSheet.student_name sheet);
    stringOrEmpty (OMRSheet.student_id sheet);
    stringOrEmpty (OMRSheet.roll_number sheet);
    CellString (OMRSheet.sheet_version sheet);
    CellString (OMRSheet.status sheet);
    numberOrEmpty (JS.num ∘ SheetResult.total_score <$> result);
    numberOrEmpty (SheetResult.percentage <$> result);
    numberOrEmpty (subjectScore sheet "english");
    numberOrEmpty (subjectScore sheet "math");
    numberOrEmpty (subjectScore sheet "science");
    numberOrEmpty (subjectScore sheet "social");
    numberOrEmpty (subjectScore sheet "hindi");
    numberOrEmpty (JS.num ∘ SheetResult.correct_answers <$> result);
    numberOrEmpty (JS.num ∘ SheetResult.incorrect_answers <$> result);
    numberOrEmpty (JS.num ∘ SheetResult.unanswered <$> result);
    numberOrEmpty (SheetResult.confidence_score <$> result);
    CellString (dateOf (OMRSheet.created_at sheet)) ].

Definition quote : string := String (ascii_of_nat 34) EmptyString.

(** The template [`"${cell}"`]; [numberToString] is the conversion of a
    number to a string. *)
Definition renderCell (numberToString : Qc → string) (cell : Cell) : string :=
  let text := match cell with
              | CellNumber n => numberToString n
              | CellString s => s
              end in
  (quote ++ text ++ quote)%string.

(** [[headers, ...csvData].map(row => row.map(cell => `"${cell}"`)
     .join(',')).join('\n')] *)
Definition csvContent (numberToString : Qc → string) (dateOf : Z → string)
    (filteredSheets : list OMRSheet.t) : string :=
  String.concat (String (ascii_of_nat 10) EmptyString)
    ((λ row, String.concat "," (renderCell numberToString <$> row))
     <$> ((CellString <$> headers) :: (csvRow dateOf <$> filteredSheets))).

(** The numeric columns of the table and the field each one prints. *)
Inductive NumericColumn :=
| TotalScore | Percentage | Subject (subject : string)
| CorrectCount | IncorrectCount | UnansweredCount | Confidence.

Definition exportedSubjects : list string :=
  ["english"; "math"; "science"; "social"; "hindi"].

Definition columnIndex (c : NumericColumn) : option nat :=
  match c with
  | TotalScore => Some 5%nat
  | Percentage => Some 6%nat
  | Subject s =>
      (λ found, (7 + found.1)%nat) <$> list_find (λ s', s' = s) exportedSubjects
  | CorrectCount => Some 12%nat
  | IncorrectCount => Some 13%nat
  | UnansweredCount => Some 14%nat
  | Confidence => Some 15%nat
  end.

Definition fieldOf (r : SheetResult.t) (c : NumericColumn) : option Qc :=
  match c with
  | TotalScore => Some (JS.num (SheetResult.total_score r))
  | Percentage => Some (SheetResult.percentage r)
  | Subject s => JS.num <$> SheetResult.subject_scores r !! s
  | CorrectCount => Some (JS.num (SheetResult.correct_answers r))
  | IncorrectCount => Some (JS.num (SheetResult.incorrect_answers r))
  | UnansweredCount => Some (JS.num (SheetResult.unanswered r))
  | Confidence => Some (SheetResult.confidence_score r)
  end.

(** The same sheet without a result row. *)
Definition withoutResult (sheet : OMRSheet.t) : OMRSheet.t :=
  {| OMRSheet.id := OMRSheet.id sheet;
     OMRSheet.student_name := OMRSheet.student_name sheet;
     OMRSheet.student_id := OMRSheet.student_id sheet;
     OMRSheet.roll_number := OMRSheet.roll_number sheet;
     OMRSheet.sheet_version := OMRSheet.sheet_version sheet;
     OMRSheet.original_filename := OMRSheet.original_filename sheet;
     OMRSheet.status := OMRSheet.status sheet;
     OMRSheet.created_at := OMRSheet.created_at sheet;
     OMRSheet.result := None |}.

End OMRResults.

(** ** Running totals, as a function of the values seen under a key *)

Module Totals.

(** The running total after one more value. *)
Definition after (o : option OMRAnalytics.Running) (x : Qc) : OMRAnalytics.Running :=
  let current :=
    default {| OMRAnalytics.total := 0%Qc; OMRAnalytics.runningCount := 0 |} o in
  {| OMRAnalytics.total := (OMRAnalytics.total current + x)%Qc;
     OMRAnalytics.runningCount := OMRAnalytics.runningCount current + 1 |}.



End Totals.

(** ** Forms used as examples *)

(** The form as it opens, with the first question of "math" set to 15 (the
    ranges of "english" and "math" overlap), and with it set to 22
    (question 21 belongs to no subject). *)
Definition overlappingBreakdown : gmap string Range :=
  {[ "english" := {| start := 1; end_ := 20 |};
     "math" := {| start := 15; end_ := 40 |};
     "science" := {| start := 41; end_ := 60 |};
     "social" := {| start := 61; end_ := 80 |};
     "hindi" := {| start := 81; end_ := 100 |} ]}.

Definition gappedBreakdown : gmap string Range :=
  {[ "english" := {| start := 1; end_ := 20 |};
     "math" := {| start := 22; end_ := 40 |};
     "science" := {| start := 41; end_ := 60 |};
     "social" := {| start := 61; end_ := 80 |};
     "hindi" := {| start := 81; end_ := 100 |} ]}.

Definition hundredOnes : string := String.concat "," (replicate 100 "1").

(** A calendar in which every day is a UTC day, named by its number. *)
Definition utcCalendar : DateEnv.t :=
  {| DateEnv.toISODate := λ t, pretty (t `div` 86400000);
     DateEnv.minusDays := λ t i, t - i * 86400000;
     DateEnv.toLocaleDateString := λ t, pretty (t `div` 86400000) |}.

(** A result with the given percentage, of version "A", taken at instant 0. *)
Definition resultWith (percentage : Qc) : ResultRow.t :=
  {| ResultRow.percentage := percentage;
     ResultRow.subject_scores := ∅;
     ResultRow.sheet_version := "A";
     ResultRow.created_at := 0 |}.

(** A completed sheet with the given result. *)
Definition sheetWith (result : option SheetResult.t) : OMRSheet.t :=
  {| OMRSheet.id := "sheet-1";
     OMRSheet.student_name := Some "Asha";
     OMRSheet.student_id := None;
     OMRSheet.roll_number := Some "17";
     OMRSheet.sheet_version := "A";
     OMRSheet.original_filename := "asha.png";
     OMRSheet.status := "completed";
     OMRSheet.created_at := 0;
     OMRSheet.result := result |}.

(** Every detected answer is 0: nothing is correct. *)
Definition allUnanswered : SheetResult.t :=
  {| SheetResult.total_score := 0;
     SheetResult.max_score := 100;
     SheetResult.percentage := 0%Qc;
     SheetResult.subject_scores :=
       {[ "english" := 0; "math" := 0; "science" := 0; "social" := 0;
          "hindi" := 0 ]};
     SheetResult.correct_answers := 0;
     SheetResult.incorrect_answers := 0;
     SheetResult.unanswered := 100;
     SheetResult.confidence_score := JS.num 90 |}.

(** The value set for an empty answer of the query. *)
Definition noAnalytics : OMRAnalytics.AnalyticsData :=
  {| OMRAnalytics.totalStudents := 0; OMRAnalytics.averageScore := 0;
     OMRAnalytics.highestScore := 0; OMRAnalytics.lowestScore := 0;
     OMRAnalytics.subjectPerformance := ∅; OMRAnalytics.versionPerformance := ∅;
     OMRAnalytics.scoreDistribution := []; OMRAnalytics.recentTrends := [] |}.

(** ** AnswerKeyManager.tsx: [openDialog], [generateRandomAnswers] *)

Module AnswerKeyDialog.
Import OMRUpload.

(** [answers.join(',')] for an array of integers. *)
Definition joinAnswers (answers : list Z) : string :=
  String.concat "," (pretty <$> answers).

(** The breakdown the form starts with. *)
Definition defaultBreakdown : gmap string Range :=
  {[ "english" := {| start := 1; end_ := 20 |};
     "math" := {| start := 21; end_ := 40 |};
     "science" := {| start := 41; end_ := 60 |};
     "social" := {| start := 61; end_ := 80 |};
     "hindi" := {| start := 81; end_ := 100 |} ]}.

Record State := {
  formData : FormData.t;
  editingKey : option AnswerKey.t;
  showDialog : bool
}.

(** [openDialog(key?)] *)
Definition openDialog (key : option AnswerKey.t) : State :=
  match key with
  | Some key =>
      {| editingKey := Some key;
         formData :=
           {| FormData.name := AnswerKey.name key;
              FormData.version := AnswerKey.version key;
              FormData.answersText := joinAnswers (AnswerKey.answers key);
              FormData.subjectBreakdown := AnswerKey.subject_breakdown key |};
         showDialog := true |}
  | None =>
      {| editingKey := None;
         formData :=
           {| FormData.name := ""; FormData.version := "";
              FormData.answersText := "";
              FormData.subjectBreakdown := defaultBreakdown |};
         showDialog := true |}
  end.

(** [generateRandomAnswers]: [Array.from({ length: 100 }, () =>
    Math.floor(Math.random() * 4) + 1)] joined into the form. *)
Definition generateRandomAnswers (draws : nat → Qc) (prev : FormData.t)
    : OMRUpload.Rand FormData.t :=
  answers ← OMRUpload.Array_from 100
              (r ← OMRUpload.Math_random draws ;
               mret (JS.Math_floor (r * JS.num 4)%Qc + 1)) ;
  mret {| FormData.name := FormData.name prev;
          FormData.version := FormData.version prev;
          FormData.answersText := joinAnswers answers;
          FormData.subjectBreakdown := FormData.subjectBreakdown prev |}.

(** Saving from a state of the dialog. *)
Definition save (state : State) (dbError : option string)
    : list AnswerKeyManager.Effect :=
  AnswerKeyManager.saveAnswerKey (formData state) (editingKey state) dbError.

End AnswerKeyDialog.

(** Every character of a string satisfies [P]. *)
Fixpoint stringForall (P : ascii → Prop) (s : string) : Prop :=
  match s with
  | EmptyString => True
  | String c rest => P c ∧ stringForall P rest
  end.

(** A decimal digit. *)
Definition isDigit (c : ascii) : Prop :=
  ∃ k : Z, 0 ≤ k ≤ 9 ∧ JSString.digitValue 10 c = Some k
           ∧ JSString.isWhiteSpace c = false ∧ c ≠ ","%char
           ∧ c ≠ "-"%char ∧ c ≠ "+"%char ∧ c ≠ "x"%char ∧ c ≠ "X"%char.

(** The number of results counted by the trend entries. *)
Definition trendTotal (trends : list OMRAnalytics.Trend) : Z :=
  foldr (λ trend n, OMRAnalytics.trendCount trend + n) 0 trends.

(** The ISO dates of the seven days of the trend window, oldest first. *)
Definition windowDays (env : DateEnv.t) (today : Z) : list string :=
  (λ i, DateEnv.toISODate env (DateEnv.minusDays env today i))
  <$> [6; 5; 4; 3; 2; 1; 0].

(** ** OMRUpload.tsx: the queue of files, [handleFiles] and [uploadFiles] *)

Module UploadQueue.
Import OMRUpload.

Module File.
Record t := { name : string; type : string; size : Z }.
End File.

Inductive Status := Pending | Uploading | Processing | Completed | Error.

#[global] Instance Status_eq_dec : EqDecision Status.
Proof. solve_decision. Defined.

Module UploadedFile.
Record t := {
  file : File.t;
  id : string;
  status : Status;
  progress : Z;
  error : option string
}.
End UploadedFile.

(** The state of the component that [uploadFiles] reads. *)
Module Form.
Record t := {
  selectedVersion : string;
  studentName : string;
  studentId : string;
  rollNumber : string
}.
End Form.

(** The object passed to [supabase.from('omr_sheets').insert]. *)
Module SheetInsert.
Record t := {
  student_name : option string;
  student_id : option string;
  roll_number : option string;
  sheet_version : string;
  original_filename : string;
  file_path : string;
  status : string
}.
End SheetInsert.

(** The object passed to [supabase.from('omr_audit_logs').insert]. *)
Module AuditLog.
Record t := {
  sheet_id : string;
  action : string;
  filename : string;
  version : string;
  studentName : string;
  studentId : string;
  rollNumber : string
}.
End AuditLog.

(** What the store and the clock answer while one file is uploaded:
    [Date.now()], the [path] of the stored file unless the storage replies
    with an error, and the [id] of the new [omr_sheets] row unless the
    insert replies with an error. *)
Module Reply.
Record t := {
  now : Z;
  upload : option string;
  sheet : option string
}.
End Reply.

(** What [handleFiles] and [uploadFiles] do besides changing the queue; every
    toast of this component is destructive. *)
Inductive Effect :=
| Toast (title description : string)
| StorageUpload (fileName : string) (file : File.t)
| InsertSheet (row : SheetInsert.t)
| StoreWrite (write : Write)
| InsertAuditLog (log : AuditLog.t)
| ConsoleError
| OnUploadComplete.

Definition validTypes : list string :=
  ["image/jpeg"; "image/jpg"; "image/png"; "application/pdf"].

Definition maxSize : Z := 20 * 1024 * 1024.

(** The callback of [fileList.filter]: the toast of a rejected file, [None]
    for a file that is kept. *)
Definition rejection (file : File.t) : option Effect :=
  if negb (bool_decide (File.type file ∈ validTypes))
  then Some (Toast "Invalid file type"
               (File.name file
                +:+ " is not a supported format. Please use JPG, PNG, or PDF."))
  else if maxSize <? File.size file
  then Some (Toast "File too large"
               (File.name file
                +:+ " is larger than 20MB. Please reduce the file size."))
  else None.

(** [xs.map(f)] for a callback that draws random numbers. *)
Fixpoint Array_map {A B} (f : A → Rand B) (xs : list A) : Rand (list B) :=
  match xs with
  | [] => mret []
  | x :: rest =>
      y ← f x ;
      ys ← Array_map f rest ;
      mret (y :: ys)
  end.

(** [handleFiles]; [toString36] is [Number.prototype.toString(36)]. *)
Definition handleFiles (toString36 : Qc → string) (draws : nat → Qc)
    (fileList : list File.t) (prev : list UploadedFile.t)
    : Rand (list UploadedFile.t * list Effect) :=
  let toasts := omap rejection fileList in
  let accepted := filter (λ file, rejection file = None) fileList in
  newFiles ← Array_map
    (λ file,
       r ← Math_random draws ;
       mret {| UploadedFile.file := file;
               UploadedFile.id := substring 2 9 (toString36 r);
               UploadedFile.status := Pending;
               UploadedFile.progress := 0;
               UploadedFile.error := None |})
    accepted ;
  mret (prev ++ newFiles, toasts).

(** [removeFile] *)
Definition removeFile (id : string) (prev : list UploadedFile.t)
    : list UploadedFile.t :=
  filter (λ f, UploadedFile.id f ≠ id) prev.

(** [prev.map(f => f.id === id ? change(f) : f)] *)
Definition update (id : string) (change : UploadedFile.t → UploadedFile.t)
    (prev : list UploadedFile.t) : list UploadedFile.t :=
  (λ f, if decide (UploadedFile.id f = id) then change f else f) <$> prev.

(** [{ ...f, status, progress }], [{ ...f, progress }] and
    [{ ...f, status: 'error', error: 'Upload failed' }] *)
Definition withStatus (status : Status) (progress : Z) (f : UploadedFile.t)
    : UploadedFile.t :=
  {| UploadedFile.file := UploadedFile.file f;
     UploadedFile.id := UploadedFile.id f;
     UploadedFile.status := status;
     UploadedFile.progress := progress;
     UploadedFile.error := UploadedFile.error f |}.

Definition withProgress (progress : Z) (f : UploadedFile.t) : UploadedFile.t :=
  withStatus (UploadedFile.status f) progress f.

Definition withError (f : UploadedFile.t) : UploadedFile.t :=
  {| UploadedFile.file := UploadedFile.file f;
     UploadedFile.id := UploadedFile.id f;
     UploadedFile.status := Error;
     UploadedFile.progress := UploadedFile.progress f;
     UploadedFile.error := Some "Upload failed" |}.

(** [s || null] *)
Definition orNull (s : string) : option string :=
  if AnswerKeyManager.isEmpty s then None else Some s.

(** The [catch] block. *)
Definition failed (fileUpload : UploadedFile.t) (files : list UploadedFile.t)
    (effects : list Effect) : list UploadedFile.t * list Effect :=
  (update (UploadedFile.id fileUpload) withError files,
   effects
   ++ [ConsoleError;
       Toast "Upload failed"
         ("Failed to upload " +:+ File.name (UploadedFile.file fileUpload))]).

(** The body of the loop of [uploadFiles] for one pending file.  The
    awaited calls resolve with a reply; the replies of
    [simulateOMRProcessing] and of the audit insert are not read. *)
Definition uploadOne (draws : nat → Qc) (table : list AnswerKey.t)
    (form : Form.t) (reply : Reply.t) (fileUpload : UploadedFile.t)
    (files : list UploadedFile.t) : Rand (list UploadedFile.t * list Effect) :=
  let id := UploadedFile.id fileUpload in
  let file := UploadedFile.file fileUpload in
  let files := update id (withStatus Uploading 10) files in
  let fileName := pretty (Reply.now reply) +:+ "_" +:+ File.name file in
  let effects := [StorageUpload fileName file] in
  match Reply.upload reply with
  | None => mret (failed fileUpload files effects)
  | Some path =>
      let files := update id (withProgress 50) files in
      let effects :=
        effects
        ++ [InsertSheet
              {| SheetInsert.student_name := orNull (Form.studentName form);
                 SheetInsert.student_id := orNull (Form.studentId form);
                 SheetInsert.roll_number := orNull (Form.rollNumber form);
                 SheetInsert.sheet_version := Form.selectedVersion form;
                 SheetInsert.original_filename := File.name file;
                 SheetInsert.file_path := path;
                 SheetInsert.status := "uploaded" |}] in
      match Reply.sheet reply with
      | None => mret (failed fileUpload files effects)
      | Some sheetId =>
          let files := update id (withStatus Processing 75) files in
          writes ← simulateOMRProcessing draws table
                     (Form.selectedVersion form) sheetId ;
          let files := update id (withStatus Completed 100) files in
          mret (files,
                effects ++ (StoreWrite <$> writes)
                ++ [InsertAuditLog
                      {| AuditLog.sheet_id := sheetId;
                         AuditLog.action := "upload";
                         AuditLog.filename := File.name file;
                         AuditLog.version := Form.selectedVersion form;
                         AuditLog.studentName := Form.studentName form;
                         AuditLog.studentId := Form.studentId form;
                         AuditLog.rollNumber := Form.rollNumber form |}])
      end
  end.

(** [for (const fileUpload of files)]: the loop runs over the queue as it
    was when [uploadFiles] was called ([snapshot]) and changes the current
    queue ([files]); [replies index] answers the file at position [index]
    of the snapshot. *)
Fixpoint uploadLoop (draws : nat → Qc) (table : list AnswerKey.t)
    (form : Form.t) (replies : nat → Reply.t) (index : nat)
    (snapshot : list UploadedFile.t) (files : list UploadedFile.t)
    : Rand (list UploadedFile.t * list Effect) :=
  match snapshot with
  | [] => mret (files, [])
  | fileUpload :: rest =>
      if decide (UploadedFile.status fileUpload ≠ Pending)
      then uploadLoop draws table form replies (S index) rest files
      else
        one ← uploadOne draws table form (replies index) fileUpload files ;
        others ← uploadLoop draws table form replies (S index) rest one.1 ;
        mret (others.1, one.2 ++ others.2)
  end.

(** [uploadFiles], run to its end with no other change of the queue in
    between: the queue it leaves and what it did. *)
Definition uploadFiles (draws : nat → Qc) (table : list AnswerKey.t)
    (form : Form.t) (replies : nat → Reply.t) (files : list UploadedFile.t)
    : Rand (list UploadedFile.t * list Effect) :=
  if AnswerKeyManager.isEmpty (Form.selectedVersion form)
  then mret (files,
             [Toast "Version required"
                "Please select the sheet version (A, B, C, or D)"])
  else
    run ← uploadLoop draws table form replies 0 files files ;
    mret (run.1, run.2 ++ [OnUploadComplete]).

(** The changes one pass of the loop makes to the entry of its file, in
    order, by the replies it receives. *)
Definition settled (reply : Reply.t) (f : UploadedFile.t) : UploadedFile.t :=
  let f := withStatus Uploading 10 f in
  match Reply.upload reply with
  | None => withError f
  | Some _ =>
      let f := withProgress 50 f in
      match Reply.sheet reply with
      | None => withError f
      | Some _ => withStatus Completed 100 (withStatus Processing 75 f)
      end
  end.

Definition isStorageUpload (e : Effect) : bool :=
  match e with StorageUpload _ _ => true | _ => false end.

Definition isStoreWrite (e : Effect) : bool :=
  match e with StoreWrite _ => true | _ => false end.

End UploadQueue.

(** ** OMRDashboard.tsx: [loadDashboardData] *)

Module OMRDashboard.

Record DashboardStats := {
  totalSheets : Z;
  completedSheets : Z;
  averageScore : Z;
  flaggedSheets : Z
}.

(** The value given to [setStats]: [sheets] is the [status] column of
    [omr_sheets], [results] the [percentage] column of [omr_results] ([[]]
    also when the query returned [null]). *)
Definition statsOf (sheets : list string) (results : list Qc) : DashboardStats :=
  let totalSheets := Z.of_nat (length sheets) in
  let completedSheets :=
    Z.of_nat (length (filter (λ status, status = "completed") sheets)) in
  let flaggedSheets :=
    Z.of_nat (length (filter (λ status, status = "flagged") sheets)) in
  let averageScore :=
    if (0 <? length results)%nat
    then (foldl (λ sum percentage, sum + percentage)%Qc 0%Qc results
          / JS.num (Z.of_nat (length results)))%Qc
    else 0%Qc in
  {| totalSheets := totalSheets;
     completedSheets := completedSheets;
     averageScore := JS.Math_round averageScore;
     flaggedSheets := flaggedSheets |}.

(** [loadDashboardData]: [None] when one of the two queries replies with an
    error (the state keeps its value and an error toast is shown). *)
Definition loadDashboardData (sheetsError resultsError : option string)
    (sheets : option (list string)) (results : option (list Qc))
    : option DashboardStats :=
  match sheetsError, resultsError with
  | None, None => Some (statsOf (default [] sheets) (default [] results))
  | _, _ => None
  end.

(** The value of the progress bar. *)
Definition progressValue (stats : DashboardStats) : Qc :=
  if 0 <? totalSheets stats
  then (JS.num (completedSheets stats) / JS.num (totalSheets stats)
        * JS.num 100)%Qc
  else 0%Qc.

End OMRDashboard.

(** ** The results table: [loadSheets] *)

Module LoadSheets.

(** The fields of an [omr_results] row that the table reads. *)
Definition resultOf (row : OmrResult.t) : SheetResult.t :=
  {| SheetResult.total_score := OmrResult.total_score row;
     SheetResult.max_score := OmrResult.max_score row;
     SheetResult.percentage := OmrResult.percentage row;
     SheetResult.subject_scores := OmrResult.subject_scores row;
     SheetResult.correct_answers := OmrResult.correct_answers row;
     SheetResult.incorrect_answers := OmrResult.incorrect_answers row;
     SheetResult.unanswered := OmrResult.unanswered row;
     SheetResult.confidence_score := OmrResult.confidence_score row |}.

(** [resultsData.find(result => result.sheet_id === id)] *)
Fixpoint find (id : string) (resultsData : list OmrResult.t)
    : option OmrResult.t :=
  match resultsData with
  | [] => None
  | result :: rest =>
      if decide (OmrResult.sheet_id result = id) then Some result
      else find id rest
  end.

(** [{ ...sheet, result: ... }] *)
Definition withResult (resultsData : list OmrResult.t) (sheet : OMRSheet.t)
    : OMRSheet.t :=
  {| OMRSheet.id := OMRSheet.id sheet;
     OMRSheet.student_name := OMRSheet.student_name sheet;
     OMRSheet.student_id := OMRSheet.student_id sheet;
     OMRSheet.roll_number := OMRSheet.roll_number sheet;
     OMRSheet.sheet_version := OMRSheet.sheet_version sheet;
     OMRSheet.original_filename := OMRSheet.original_filename sheet;
     OMRSheet.status := OMRSheet.status sheet;
     OMRSheet.created_at := OMRSheet.created_at sheet;
     OMRSheet.result := resultOf <$> find (OMRSheet.id sheet) resultsData |}.

(** [loadSheets]: the value given to [setSheets]; [None] when one of the
    two queries replies with an error. *)
Definition loadSheets (sheetsError resultsError : option string)
    (sheetsData : option (list OMRSheet.t))
    (resultsData : option (list OmrResult.t)) : option (list OMRSheet.t) :=
  match sheetsError, resultsError with
  | None, None =>
      Some (withResult (default [] resultsData) <$> default [] sheetsData)
  | _, _ => None
  end.

End LoadSheets.

(** A queue of two files: a pending scan and one that already failed; a
    store that accepts everything; a form with version "A". *)
Definition scanFile : UploadQueue.File.t :=
  {| UploadQueue.File.name := "asha.png"; UploadQueue.File.type := "image/png";
     UploadQueue.File.size := 1024 |}.

Definition twoFiles : list UploadQueue.UploadedFile.t :=
  [ {| UploadQueue.UploadedFile.file := scanFile;
       UploadQueue.UploadedFile.id := "a1b2c3d4e";
       UploadQueue.UploadedFile.status := UploadQueue.Pending;
       UploadQueue.UploadedFile.progress := 0;
       UploadQueue.UploadedFile.error := None |};
    {| UploadQueue.UploadedFile.file := scanFile;
       UploadQueue.UploadedFile.id := "f5g6h7i8j";
       UploadQueue.UploadedFile.status := UploadQueue.Error;
       UploadQueue.UploadedFile.progress := 10;
       UploadQueue.UploadedFile.error := Some "Upload failed" |} ].

Definition acceptingStore : nat → UploadQueue.Reply.t :=
  λ _, {| UploadQueue.Reply.now := 1700000000000;
          UploadQueue.Reply.upload := Some "1700000000000_asha.png";
          UploadQueue.Reply.sheet := Some "sheet-1" |}.

Definition versionA : UploadQueue.Form.t :=
  {| UploadQueue.Form.selectedVersion := "A";
     UploadQueue.Form.studentName := "Asha";
     UploadQueue.Form.studentId := "";
     UploadQueue.Form.rollNumber := "17" |}.

Definition halves : nat → Qc := λ _, (JS.num 1 / JS.num 2)%Qc.

#[global] Existing Instance Scorer.Verdict_eq_dec.



(** ** AnswerKeyManager.tsx: the inputs of a subject range *)

Module RangeInput.





End RangeInput.

(** * Properties *)

Section scoring_facts.
Import OMRUpload Scorer.

Lemma countVerdict_cons v w vs :
  countVerdict v (w :: vs)
  = (if decide (w = v) then 1 else 0) + countVerdict v vs.
Proof.
  unfold countVerdict. rewrite filter_cons.
  destruct (decide (w = v)); simpl length; lia.
Qed.

Lemma countVerdict_total vs :
  countVerdict Correct vs + countVerdict Incorrect vs
  + countVerdict Unanswered vs = Z.of_nat (length vs).
Proof.
  induction vs as [|w vs IH]; [reflexivity|].
  rewrite !countVerdict_cons. simpl length.
  destruct w; repeat case_decide; try congruence; lia.
Qed.

Lemma idx_of_nat {A} (arr : list A) (i : nat) :
  JS.idx arr (Z.of_nat i) = arr !! i.
Proof.
  unfold JS.idx. destruct (Z.ltb_spec (Z.of_nat i) 0); [lia|].
  by rewrite Nat2Z.id.
Qed.

(** One step of the loop adds one to the counter of the question's verdict. *)
Lemma tallyStep_classify correctAnswers t answer index keyAnswer :
  correctAnswers !! index = Some keyAnswer →
  tallyStep correctAnswers t answer index
  = match classify answer keyAnswer with
    | Unanswered => {| correct := correct t; incorrect := incorrect t;
                       unanswered := unanswered t + 1 |}
    | Correct => {| correct := correct t + 1; incorrect := incorrect t;
                    unanswered := unanswered t |}
    | Incorrect => {| correct := correct t; incorrect := incorrect t + 1;
                      unanswered := unanswered t |}
    end.
Proof.
  intros Hk. unfold tallyStep, classify, JS.strict_eq.
  rewrite idx_of_nat, Hk.
  destruct (Z.eqb_spec answer 0) as [->|Hnz].
  - by rewrite decide_True.
  - rewrite (decide_False (P := answer = 0)) by done.
    destruct (decide (answer = keyAnswer)) as [->|Hne].
    + by rewrite bool_decide_eq_true_2.
    + rewrite bool_decide_eq_false_2; [done|congruence].
Qed.

Lemma forEach_tally correctAnswers detectedAnswers :
  ∀ index t,
    (index + length detectedAnswers ≤ length correctAnswers)%nat →
    let vs := verdicts detectedAnswers (drop index correctAnswers) in
    let t' := forEach (tallyStep correctAnswers) detectedAnswers index t in
    correct t' = correct t + countVerdict Correct vs
    ∧ incorrect t' = incorrect t + countVerdict Incorrect vs
    ∧ unanswered t' = unanswered t + countVerdict Unanswered vs.
Proof.
  induction detectedAnswers as [|answer rest IH]; intros index t Hlen.
  - simpl. unfold countVerdict. simpl. lia.
  - simpl in Hlen.
    destruct (lookup_lt_is_Some_2 correctAnswers index) as [k Hk]; [lia|].
    cbn zeta. simpl forEach.
    rewrite (drop_S _ _ _ Hk). unfold verdicts. simpl zip_with.
    rewrite !countVerdict_cons.
    specialize (IH (S index) (tallyStep correctAnswers t answer index)).
    cbn zeta in IH. destruct IH as (Hc & Hi & Hu); [lia|].
    fold (verdicts rest (drop (S index) correctAnswers)).
    rewrite Hc, Hi, Hu, (tallyStep_classify _ _ _ _ _ Hk).
    destruct (classify answer k); simpl;
      repeat case_decide; try congruence; lia.
Qed.

End scoring_facts.

(** C1.  For an answer key and a detected-answer vector that both have
  [totalQuestions] entries, the counters computed by the scoring loop are
  the numbers of questions whose verdict is correct, incorrect and
  unanswered (each question having the one verdict [classify] gives it),
  and the three counters add up to [totalQuestions]. *)
Theorem score_counts_partition (answerKey : AnswerKey.t) (detectedAnswers : list Z) :
  Z.of_nat (length (AnswerKey.answers answerKey))
    = AnswerKey.total_questions answerKey →
  Z.of_nat (length detectedAnswers) = AnswerKey.total_questions answerKey →
  let t := OMRUpload.scoreAnswers detectedAnswers (AnswerKey.answers answerKey) in
  let vs := Scorer.verdicts detectedAnswers (AnswerKey.answers answerKey) in
  length vs = length detectedAnswers
  ∧ OMRUpload.correct t = Scorer.countVerdict Scorer.Correct vs
  ∧ OMRUpload.incorrect t = Scorer.countVerdict Scorer.Incorrect vs
  ∧ OMRUpload.unanswered t = Scorer.countVerdict Scorer.Unanswered vs
  ∧ OMRUpload.correct t + OMRUpload.incorrect t + OMRUpload.unanswered t
    = AnswerKey.total_questions answerKey.
Proof.
  intros Hkey Hdet t vs.
  assert (Hlen : length vs = length detectedAnswers).
  { unfold vs, Scorer.verdicts. rewrite length_zip_with. lia. }
  destruct (forEach_tally (AnswerKey.answers answerKey) detectedAnswers 0
              {| OMRUpload.correct := 0; OMRUpload.incorrect := 0;
                 OMRUpload.unanswered := 0 |}) as (Hc & Hi & Hu); [lia|].
  rewrite drop_0 in Hc, Hi, Hu. simpl in Hc, Hi, Hu.
  fold t vs in Hc, Hi, Hu.
  pose proof (countVerdict_total vs) as Htot.
  repeat split; try assumption.
  unfold t, OMRUpload.scoreAnswers. lia.
Qed.

Lemma score_counts_partition_witness :
  let answerKey :=
    {| AnswerKey.id := "k1"; AnswerKey.name := "Scenario"; AnswerKey.version := "A";
       AnswerKey.subject_breakdown :=
         {[ "s1" := {| start := 1; end_ := 2 |};
            "s2" := {| start := 3; end_ := 4 |} ]};
       AnswerKey.answers := [1; 2; 3; 4];
       AnswerKey.total_questions := 4; AnswerKey.max_score := 4 |} in
  let t := OMRUpload.scoreAnswers [1; 2; 0; 1] [1; 2; 3; 4] in
  OMRUpload.correct t = 2 ∧ OMRUpload.incorrect t = 1 ∧ OMRUpload.unanswered t = 1
  ∧ OMRUpload.correct t + OMRUpload.incorrect t + OMRUpload.unanswered t = 4.
Proof.
  intros answerKey t.
  assert (Z.of_nat (length (AnswerKey.answers answerKey))
          = AnswerKey.total_questions answerKey) as Hkey by reflexivity.
  assert (Z.of_nat (length [1; 2; 0; 1]) = AnswerKey.total_questions answerKey)
    as Hdet by reflexivity.
  pose proof (score_counts_partition answerKey [1; 2; 0; 1] Hkey Hdet) as H.
  cbv zeta in H. destruct H as (_ & Hc & Hi & Hu & Hsum).
  exact (conj Hc (conj Hi (conj Hu Hsum))).
Defined.

(** ** Subject scores *)

Section subject_score_facts.
Import OMRUpload Scorer.

Lemma filter_none {A} (P : A → Prop) `{∀ x, Decision (P x)} (l : list A) :
  (∀ x, x ∈ l → ¬ P x) → filter P l = [].
Proof.
  induction l as [|x l IH]; intros Hl; [done|].
  rewrite filter_cons, decide_False by (apply Hl; left).
  apply IH. intros y Hy. apply Hl. by right.
Qed.

Lemma filter_agree {A} (P Q : A → Prop)
    `{∀ x, Decision (P x)} `{∀ x, Decision (Q x)} (l : list A) :
  (∀ x, x ∈ l → P x ↔ Q x) → filter P l = filter Q l.
Proof.
  induction l as [|x l IH]; intros Hl; [done|].
  rewrite !filter_cons.
  assert (P x ↔ Q x) as Hx by (apply Hl; left).
  rewrite IH by (intros y Hy; apply Hl; by right).
  destruct (decide (P x)), (decide (Q x)); tauto.
Qed.



Context (detectedAnswers correctAnswers : list Z).
Hypothesis same_length : length detectedAnswers = length correctAnswers.
Hypothesis key_nonzero : Forall (λ a, a ≠ 0) correctAnswers.





End subject_score_facts.

(** ** Percentage *)

Section number_facts.

Lemma this_plus (x y : Qc) : (this (x + y)%Qc == this x + this y)%Q.
Proof. unfold Qcplus, Q2Qc. simpl. apply Qred_correct. Qed.

Lemma this_minus (x y : Qc) : (this (x - y)%Qc == this x - this y)%Q.
Proof. unfold Qcminus, Qcplus, Qcopp, Q2Qc. simpl. by rewrite !Qred_correct. Qed.

Lemma this_opp (x : Qc) : (this (- x)%Qc == - this x)%Q.
Proof. unfold Qcopp, Q2Qc. simpl. apply Qred_correct. Qed.

Lemma this_mult (x y : Qc) : (this (x * y)%Qc == this x * this y)%Q.
Proof. unfold Qcmult, Q2Qc. simpl. apply Qred_correct. Qed.

Lemma this_div (x y : Qc) : (this (x / y)%Qc == this x / this y)%Q.
Proof. unfold Qcdiv, Qcmult, Qcinv, Q2Qc. simpl. by rewrite !Qred_correct. Qed.

Lemma this_inv (x : Qc) : (this (/ x)%Qc == / this x)%Q.
Proof. unfold Qcinv, Q2Qc. simpl. apply Qred_correct. Qed.

Lemma this_num (z : Z) : this (JS.num z) = inject_Z z.
Proof. reflexivity. Qed.

Lemma this_0 : this 0%Qc = 0%Q.
Proof. reflexivity. Qed.

Lemma this_1 : this 1%Qc = 1%Q.
Proof. reflexivity. Qed.

Lemma Qfloor_unique (q : Q) (n : Z) :
  (inject_Z n <= q)%Q → (q < inject_Z (n + 1))%Q → Qfloor q = n.
Proof.
  intros Hlo Hhi.
  pose proof (Qfloor_le q) as Hfl. pose proof (Qlt_floor q) as Hfu.
  assert (inject_Z n < inject_Z (Qfloor q + 1))%Q as H1
    by (eapply Qle_lt_trans; eauto).
  assert (inject_Z (Qfloor q) < inject_Z (n + 1))%Q as H2
    by (eapply Qle_lt_trans; eauto).
  rewrite <- Zlt_Qlt in H1, H2. lia.
Qed.

End number_facts.

(** Order facts on [Qc] are moved to [Q], where [lra] decides them. *)
Create Rewrite HintDb qc_this.
#[local] Hint Rewrite this_plus this_minus this_opp this_mult this_div this_inv
  : qc_this.
Create Rewrite HintDb qc_const.
#[local] Hint Rewrite this_num this_0 this_1 : qc_const.

Ltac qc_push :=
  repeat first [ rewrite_strat (topdown (hints qc_this))
               | rewrite_strat (topdown (hints qc_const)) ].

Ltac qc_push_in H :=
  repeat first [ rewrite_strat (topdown (hints qc_this)) in H
               | rewrite_strat (topdown (hints qc_const)) in H ].

Ltac qc_to_q :=
  unfold Qcle, Qclt in *;
  qc_push;
  repeat match goal with
         | H : context [this _] |- _ => progress (qc_push_in H)
         end.

Ltac q_consts :=
  rewrite ?inject_Z_plus, ?inject_Z_opp in *;
  unfold Qdiv in *;
  change (inject_Z 0) with 0%Q in *;
  repeat match goal with
         | |- context [inject_Z (Zpos ?p)] =>
             change (inject_Z (Zpos p)) with (Zpos p # 1)%Q in *
         | H : context [inject_Z (Zpos ?p)] |- _ =>
             change (inject_Z (Zpos p)) with (Zpos p # 1)%Q in *
         end;
  repeat match goal with
         | |- context [Qinv (Zpos ?p # 1)] =>
             change (Qinv (Zpos p # 1)) with (1 # p)%Q in *
         | H : context [Qinv (Zpos ?p # 1)] |- _ =>
             change (Qinv (Zpos p # 1)) with (1 # p)%Q in *
         end.

Section rounding_facts.

(** The integer picked by [toFixed(2)] is [floor (100 x + 1/2)]. *)
Lemma toFixed2_magnitude_floor (x : Qc) :
  JS.toFixed2_magnitude x = Qfloor (x * JS.num 100 + JS.num 1 / JS.num 2)%Qc.
Proof.
  unfold JS.toFixed2_magnitude. cbv zeta.
  set (y := (x * JS.num 100)%Qc). clearbody y.
  pose proof (Qfloor_le y) as Hfl. pose proof (Qlt_floor y) as Hfu.
  symmetry.
  case_decide as Hcmp; apply Qfloor_unique; qc_to_q; q_consts; lra.
Qed.


(** What [roundHalfAwayFromZero2] picks: the multiple [n / 100] whose
    distance to [x] is at most [1/200], and in a tie the one away from zero. *)
Lemma roundHalfAwayFromZero2_nearest (x : Qc) :
  ∃ n : Z,
    roundHalfAwayFromZero2 x = (JS.num n / JS.num 100)%Qc
    ∧ ((0 ≤ x)%Qc →
       (JS.num n - JS.num 1 / JS.num 2 ≤ x * JS.num 100)%Qc
       ∧ (x * JS.num 100 < JS.num n + JS.num 1 / JS.num 2)%Qc)
    ∧ ((x < 0)%Qc →
       (JS.num n - JS.num 1 / JS.num 2 < x * JS.num 100)%Qc
       ∧ (x * JS.num 100 ≤ JS.num n + JS.num 1 / JS.num 2)%Qc).
Proof.
  unfold roundHalfAwayFromZero2. cbv zeta.
  set (y := (x * JS.num 100)%Qc).
  destruct (decide (0 ≤ y)%Qc) as [Hy|Hy].
  - eexists. split; [reflexivity|]. split.
    + intros _.
      pose proof (Qfloor_le (y + JS.num 1 / JS.num 2)%Qc) as Hfl.
      pose proof (Qlt_floor (y + JS.num 1 / JS.num 2)%Qc) as Hfu.
      set (n := Qfloor (y + JS.num 1 / JS.num 2)%Qc) in *.
      clearbody n y. split; qc_to_q; q_consts; lra.
    + intros Hx. exfalso. subst y. qc_to_q. q_consts. lra.
  - eexists. split; [reflexivity|]. split.
    + intros Hx. exfalso. subst y. qc_to_q. q_consts. lra.
    + intros _.
      pose proof (Qle_ceiling (y - JS.num 1 / JS.num 2)%Qc) as Hcl.
      pose proof (Qceiling_lt (y - JS.num 1 / JS.num 2)%Qc) as Hcu.
      set (n := Qceiling (y - JS.num 1 / JS.num 2)%Qc) in *.
      replace (n - 1) with (n + - (1)) in Hcu by lia.
      clearbody n y. split; qc_to_q; q_consts; lra.
Qed.

End rounding_facts.

Section simulate_facts.
Import OMRUpload.

(** The run of [simulateOMRProcessing] once the query returned a key. *)
Lemma simulateOMRProcessing_inserted draws table selectedVersion sheetId pos
    answerKey others :
  selectAnswerKeys table selectedVersion = answerKey :: others →
  let detectedAnswers := (generateDetectedAnswers draws pos).1 in
  let p := (generateDetectedAnswers draws pos).2 in
  let t := scoreAnswers detectedAnswers (AnswerKey.answers answerKey) in
  insertedRow (simulateOMRProcessing draws table selectedVersion sheetId pos).1
  = Some
      {| OmrResult.sheet_id := sheetId;
         OmrResult.answer_key_id := AnswerKey.id answerKey;
         OmrResult.detected_answers := detectedAnswers;
         OmrResult.subject_scores :=
           subjectScoresOf detectedAnswers (AnswerKey.answers answerKey)
             (AnswerKey.subject_breakdown answerKey);
         OmrResult.total_score := correct t;
         OmrResult.max_score := AnswerKey.max_score answerKey;
         OmrResult.percentage := percentageOf (correct t) answerKey;
         OmrResult.correct_answers := correct t;
         OmrResult.incorrect_answers := incorrect t;
         OmrResult.unanswered := unanswered t;
         OmrResult.confidence_score := (draws p * JS.num 20 + JS.num 80)%Qc;
         OmrResult.processing_time :=
           JS.Math_floor (draws (S p) * JS.num 5000)%Qc + 1000 |}.
Proof.
  intros Hsel. unfold simulateOMRProcessing. rewrite Hsel.
  unfold mbind, Rand_bind, mret, Rand_ret, Math_random.
  destruct (generateDetectedAnswers draws pos) as [detected p]. reflexivity.
Qed.

(** Without a key for the version nothing is written. *)
Lemma simulateOMRProcessing_no_key draws table selectedVersion sheetId pos :
  selectAnswerKeys table selectedVersion = [] →
  (simulateOMRProcessing draws table selectedVersion sheetId pos).1 = [].
Proof. intros Hsel. unfold simulateOMRProcessing. by rewrite Hsel. Qed.

Lemma insertedRow_selects draws table selectedVersion sheetId pos row :
  insertedRow (simulateOMRProcessing draws table selectedVersion sheetId pos).1
    = Some row →
  ∃ answerKey others, selectAnswerKeys table selectedVersion = answerKey :: others.
Proof.
  destruct (selectAnswerKeys table selectedVersion) as [|k ks] eqn:Hsel.
  - rewrite simulateOMRProcessing_no_key by done. discriminate.
  - eauto.
Qed.

End simulate_facts.




(** The scenario of the specification: key [1,2,3,4] with subjects s1 =
    [1,2] and s2 = [3,4], detected answers [1,2,0,1]. *)
Example scoring_scenario :
  let answerKey :=
    {| AnswerKey.id := "k1"; AnswerKey.name := "Scenario"; AnswerKey.version := "A";
       AnswerKey.subject_breakdown :=
         {[ "s1" := {| start := 1; end_ := 2 |};
            "s2" := {| start := 3; end_ := 4 |} ]};
       AnswerKey.answers := [1; 2; 3; 4];
       AnswerKey.total_questions := 4; AnswerKey.max_score := 4 |} in
  OMRUpload.scoreAnswers [1; 2; 0; 1] (AnswerKey.answers answerKey)
  = {| OMRUpload.correct := 2; OMRUpload.incorrect := 1;
       OMRUpload.unanswered := 1 |}
  ∧ OMRUpload.subjectScoresOf [1; 2; 0; 1] (AnswerKey.answers answerKey)
      (AnswerKey.subject_breakdown answerKey)
    = {[ "s1" := 2; "s2" := 0 ]}
  ∧ OMRUpload.percentageOf 2 answerKey = JS.num 50.
Proof.
  intros answerKey. split; [|split].
  - vm_compute. reflexivity.
  - vm_compute. reflexivity.
  - apply Qc_is_canon. vm_compute. reflexivity.
Qed.




(** ** Confidence and processing time *)



(** ** Saving an answer key *)

Section parsing_examples.
Import JSString.

Example split_commas : split ","%char "1, 2,,x" = ["1"; " 2"; ""; "x"].
Proof. reflexivity. Qed.

Example split_empty : split ","%char "" = [""].
Proof. reflexivity. Qed.

Example trim_spaces : trim "  4 " = "4".
Proof. reflexivity. Qed.

Example parseInt_examples :
  parseInt "3" = Some 3 ∧ parseInt " 12abc" = Some 12 ∧ parseInt "-7" = Some (-7)
  ∧ parseInt "0x1F" = Some 31 ∧ parseInt "2.9" = Some 2
  ∧ parseInt "" = None ∧ parseInt "abc" = None.
Proof. repeat split; reflexivity. Qed.

Example parseAnswers_drops_NaN :
  AnswerKeyManager.parseAnswers "1, 2,,x,5" = [1; 2; 5].
Proof. reflexivity. Qed.

End parsing_examples.

Section save_facts.
Import AnswerKeyManager.

Lemma isEmpty_false (s : string) : s ≠ EmptyString → isEmpty s = false.
Proof. intros Hs. unfold isEmpty. by rewrite bool_decide_eq_false_2. Qed.

Lemma existsb_out_of_range (answers : list Z) :
  existsb (λ a, (a <? 1) || (a >? 4)) answers = true
  ↔ Exists (λ a, a < 1 ∨ 4 < a) answers.
Proof.
  rewrite existsb_exists, Exists_exists. split.
  - intros (a & Hin & Ha). exists a. split; [by apply list_elem_of_In|].
    apply orb_true_iff in Ha. destruct Ha as [Ha|Ha]; [left|right]; lia.
  - intros (a & Hin & Ha). exists a. split; [by apply list_elem_of_In|].
    apply orb_true_iff. destruct Ha; [left|right]; lia.
Qed.

Lemma existsb_in_range (answers : list Z) :
  Forall (λ a, 1 ≤ a ≤ 4) answers →
  existsb (λ a, (a <? 1) || (a >? 4)) answers = false.
Proof.
  intros Hall. apply not_true_is_false. rewrite existsb_out_of_range.
  rewrite Exists_exists. intros (a & Hin & Ha).
  rewrite Forall_forall in Hall. specialize (Hall a Hin). simpl in Hall. lia.
Qed.

End save_facts.

(** C5.  When the answers parsed from the form are not exactly 100, or one
    of them is outside [1, 4], [saveAnswerKey] only shows a validation
    error: it issues no insert and no update of [answer_keys]. *)
Theorem invalid_answers_persist_nothing
    (formData : FormData.t) (editingKey : option AnswerKey.t)
    (dbError : option string) :
  let answers := AnswerKeyManager.parseAnswers (FormData.answersText formData) in
  length answers ≠ 100%nat ∨ Exists (λ a, a < 1 ∨ 4 < a) answers →
  (∃ description,
     AnswerKeyManager.saveAnswerKey formData editingKey dbError
     = [AnswerKeyManager.Toast "Validation Error" description true])
  ∧ Forall (λ e, AnswerKeyManager.persists e = false)
      (AnswerKeyManager.saveAnswerKey formData editingKey dbError).
Proof.
  intros answers Hbad.
  assert (∃ description,
            AnswerKeyManager.saveAnswerKey formData editingKey dbError
            = [AnswerKeyManager.Toast "Validation Error" description true])
    as [description Hsave].
  { unfold AnswerKeyManager.saveAnswerKey. fold answers.
    destruct (_ || _ || _); [eauto|].
    destruct (Nat.eqb_spec (length answers) 100) as [Hlen|Hlen]; simpl; [|eauto].
    destruct Hbad as [Hbad|Hbad]; [done|].
    apply existsb_out_of_range in Hbad. rewrite Hbad. eauto. }
  split; [eauto|]. rewrite Hsave. by repeat constructor.
Qed.

Lemma invalid_answers_persist_nothing_witness :
  let formData :=
    {| FormData.name := "Final Exam 2024"; FormData.version := "A";
       FormData.answersText := "1,2,3,9";
       FormData.subjectBreakdown := ∅ |} in
  Forall (λ e, AnswerKeyManager.persists e = false)
    (AnswerKeyManager.saveAnswerKey formData None None).
Proof.
  intros formData.
  assert (length (AnswerKeyManager.parseAnswers (FormData.answersText formData))
          ≠ 100%nat) as Hlen by (vm_compute; discriminate).
  exact (proj2 (invalid_answers_persist_nothing formData None None (or_introl Hlen))).
Defined.

(** C4, as the specification states it, at two inputs: a breakdown with
    overlapping ranges and one with a gap are both inserted, and the only
    toast is the success message. *)
Lemma overlap_and_gap_are_saved :
  let form := λ breakdown,
    {| FormData.name := "Final Exam 2024"; FormData.version := "A";
       FormData.answersText := hundredOnes;
       FormData.subjectBreakdown := breakdown |} in
  let keyData := λ breakdown,
    {| KeyData.name := "Final Exam 2024"; KeyData.version := "A";
       KeyData.subject_breakdown := breakdown;
       KeyData.answers := replicate 100 1;
       KeyData.total_questions := 100; KeyData.max_score := 100 |} in
  let saved := λ breakdown,
    [ AnswerKeyManager.InsertAnswerKey (keyData breakdown);
      AnswerKeyManager.Toast "Success" "Answer key created successfully" false;
      AnswerKeyManager.CloseDialog; AnswerKeyManager.LoadAnswerKeys;
      AnswerKeyManager.OnUpdate ] in
  Validation.rangesOverlap overlappingBreakdown
  ∧ AnswerKeyManager.saveAnswerKey (form overlappingBreakdown) None None
    = saved overlappingBreakdown
  ∧ Validation.rangesLeaveGap gappedBreakdown 100
  ∧ AnswerKeyManager.saveAnswerKey (form gappedBreakdown) None None
    = saved gappedBreakdown.
Proof.
  intros form keyData saved.
  assert (AnswerKeyManager.parseAnswers hundredOnes = replicate 100 1) as Hparse
    by (vm_compute; reflexivity).
  assert (∀ breakdown,
            AnswerKeyManager.saveAnswerKey (form breakdown) None None
            = saved breakdown) as Hsave.
  { intros breakdown. unfold AnswerKeyManager.saveAnswerKey, form, saved, keyData.
    cbn [FormData.name FormData.version FormData.answersText
         FormData.subjectBreakdown].
    rewrite Hparse. reflexivity. }
  split; [|split; [|split]].
  - exists "english", "math", {| start := 1; end_ := 20 |},
           {| start := 15; end_ := 40 |}, 15.
    unfold Validation.inRange. simpl.
    split; [discriminate|]. split; [by vm_compute|]. split; [by vm_compute|]. lia.
  - apply Hsave.
  - exists 21. split; [lia|]. intros s r Hr.
    unfold gappedBreakdown in Hr.
    repeat (apply lookup_insert_Some in Hr;
            destruct Hr as [[_ <-]|[_ Hr]];
            [unfold Validation.inRange; simpl; lia|]).
    apply lookup_singleton_Some in Hr. destruct Hr as [_ <-].
    unfold Validation.inRange; simpl; lia.
  - apply Hsave.
Qed.

(** C4 (amended).  [saveAnswerKey] does not look at the subject ranges:
    when the name, the version and the answers pass their checks, the key is
    written (updated when editing, inserted otherwise) with the breakdown of
    the form as it is, whatever its ranges are. *)
Theorem breakdown_is_saved_unchecked
    (formData : FormData.t) (editingKey : option AnswerKey.t)
    (dbError : option string) :
  let answers := AnswerKeyManager.parseAnswers (FormData.answersText formData) in
  FormData.name formData ≠ EmptyString →
  FormData.version formData ≠ EmptyString →
  FormData.answersText formData ≠ EmptyString →
  length answers = 100%nat →
  Forall (λ a, 1 ≤ a ≤ 4) answers →
  let keyData :=
    {| KeyData.name := FormData.name formData;
       KeyData.version := FormData.version formData;
       KeyData.subject_breakdown := FormData.subjectBreakdown formData;
       KeyData.answers := answers;
       KeyData.total_questions := 100; KeyData.max_score := 100 |} in
  ∃ rest,
    AnswerKeyManager.saveAnswerKey formData editingKey dbError
    = match editingKey with
      | Some key => AnswerKeyManager.UpdateAnswerKey keyData (AnswerKey.id key)
      | None => AnswerKeyManager.InsertAnswerKey keyData
      end :: rest.
Proof.
  intros answers Hname Hversion Htext Hlen Hrange keyData.
  unfold AnswerKeyManager.saveAnswerKey. fold answers.
  rewrite !isEmpty_false by done. simpl.
  rewrite Hlen. simpl. rewrite existsb_in_range by done.
  fold keyData. destruct dbError; eauto.
Qed.

Lemma breakdown_is_saved_unchecked_witness :
  let formData :=
    {| FormData.name := "Final Exam 2024"; FormData.version := "A";
       FormData.answersText := hundredOnes;
       FormData.subjectBreakdown := overlappingBreakdown |} in
  let answers := AnswerKeyManager.parseAnswers (FormData.answersText formData) in
  ∃ rest,
    AnswerKeyManager.saveAnswerKey formData None None
    = AnswerKeyManager.InsertAnswerKey
        {| KeyData.name := FormData.name formData;
           KeyData.version := FormData.version formData;
           KeyData.subject_breakdown := FormData.subjectBreakdown formData;
           KeyData.answers := answers;
           KeyData.total_questions := 100; KeyData.max_score := 100 |} :: rest.
Proof.
  intros formData answers.
  assert (answers = replicate 100 1) as Hparse by (vm_compute; reflexivity).
  assert (FormData.name formData ≠ EmptyString) as Hname by discriminate.
  assert (FormData.version formData ≠ EmptyString) as Hversion by discriminate.
  assert (FormData.answersText formData ≠ EmptyString) as Htext
    by (vm_compute; discriminate).
  assert (length answers = 100%nat) as Hlen by (rewrite Hparse; reflexivity).
  assert (Forall (λ a, 1 ≤ a ≤ 4) answers) as Hrange.
  { rewrite Hparse. apply Forall_replicate. lia. }
  exact (breakdown_is_saved_unchecked formData None None
           Hname Hversion Htext Hlen Hrange).
Defined.

(** ** Analytics *)

Section analytics_facts.
Import OMRAnalytics.

(** *** Sums *)

Lemma sum_from (a : Qc) (xs : list Qc) :
  foldl Qcplus a xs = (a + sum xs)%Qc.
Proof.
  unfold sum. revert a. induction xs as [|x xs IH]; intros a; simpl.
  - by rewrite Qcplus_0_r.
  - rewrite (IH (a + x)%Qc), (IH (0 + x)%Qc). ring.
Qed.

Lemma sum_cons (x : Qc) (xs : list Qc) : sum (x :: xs) = (x + sum xs)%Qc.
Proof. unfold sum at 1. simpl. rewrite sum_from. ring. Qed.


(** *** Extrema *)

Lemma max2_upper (x y : Qc) : (x ≤ max2 x y)%Qc ∧ (y ≤ max2 x y)%Qc.
Proof.
  unfold max2. case_decide as H; split; try done.
  apply Qclt_le_weak. by apply Qcnot_le_lt.
Qed.

Lemma max2_cases (x y : Qc) : max2 x y = x ∨ max2 x y = y.
Proof. unfold max2. case_decide; auto. Qed.

Lemma min2_lower (x y : Qc) : (min2 x y ≤ x)%Qc ∧ (min2 x y ≤ y)%Qc.
Proof.
  unfold min2. case_decide as H; split; try done.
  apply Qclt_le_weak. by apply Qcnot_le_lt.
Qed.

Lemma min2_cases (x y : Qc) : min2 x y = x ∨ min2 x y = y.
Proof. unfold min2. case_decide; auto. Qed.

(** [Math.max] returns an argument that is at least every argument. *)
Lemma Math_max_greatest (xs : list Qc) :
  ∀ x, Math_max x xs ∈ x :: xs ∧ ∀ y, y ∈ x :: xs → (y ≤ Math_max x xs)%Qc.
Proof.
  unfold Math_max. induction xs as [|a xs IH]; intros x; simpl.
  - split; [left|]. intros y Hy. apply list_elem_of_singleton in Hy. by subst.
  - destruct (IH (max2 x a)) as [Hin Hub]. split.
    + apply elem_of_cons in Hin. destruct Hin as [Heq|Hin].
      * rewrite Heq. destruct (max2_cases x a) as [->| ->];
          [left | right; left].
      * by do 2 right.
    + intros y Hy. destruct (max2_upper x a) as [Hx Ha].
      assert (max2 x a ≤ foldl max2 (max2 x a) xs)%Qc as Hm by (apply Hub; left).
      apply elem_of_cons in Hy. destruct Hy as [->|Hy].
      { by eapply Qcle_trans. }
      apply elem_of_cons in Hy. destruct Hy as [->|Hy].
      { by eapply Qcle_trans. }
      apply Hub. by right.
Qed.

(** [Math.min] returns an argument that is at most every argument. *)
Lemma Math_min_least (xs : list Qc) :
  ∀ x, Math_min x xs ∈ x :: xs ∧ ∀ y, y ∈ x :: xs → (Math_min x xs ≤ y)%Qc.
Proof.
  unfold Math_min. induction xs as [|a xs IH]; intros x; simpl.
  - split; [left|]. intros y Hy. apply list_elem_of_singleton in Hy. by subst.
  - destruct (IH (min2 x a)) as [Hin Hlb]. split.
    + apply elem_of_cons in Hin. destruct Hin as [Heq|Hin].
      * rewrite Heq. destruct (min2_cases x a) as [->| ->];
          [left | right; left].
      * by do 2 right.
    + intros y Hy. destruct (min2_lower x a) as [Hx Ha].
      assert (foldl min2 (min2 x a) xs ≤ min2 x a)%Qc as Hm by (apply Hlb; left).
      apply elem_of_cons in Hy. destruct Hy as [->|Hy].
      { by eapply Qcle_trans. }
      apply elem_of_cons in Hy. destruct Hy as [->|Hy].
      { by eapply Qcle_trans. }
      apply Hlb. by right.
Qed.



End analytics_facts.

Section totals_facts.
Import OMRAnalytics.















End totals_facts.



(** The scenario of the specification: two results, 80 and 60. *)
Example analytics_of_80_and_60 :
  let data :=
    OMRAnalytics.analyticsOf utcCalendar 0
      [resultWith (JS.num 80); resultWith (JS.num 60)] in
  OMRAnalytics.totalStudents data = 2
  ∧ OMRAnalytics.averageScore data = 70
  ∧ OMRAnalytics.highestScore data = 80
  ∧ OMRAnalytics.lowestScore data = 60
  ∧ length (OMRAnalytics.recentTrends data) = 7%nat.
Proof. intros data. repeat split; vm_compute; reflexivity. Qed.

(** C6, as the specification states it, at the empty sequence: the trend has
    no entry, not 7. *)
Lemma empty_results_give_no_trend_entries :
  (λ data, length (OMRAnalytics.recentTrends data))
    <$> OMRAnalytics.loadAnalyticsData utcCalendar 0 None (Some []) = Some 0%nat
  ∧ (λ data, length (OMRAnalytics.recentTrends data))
      <$> OMRAnalytics.loadAnalyticsData utcCalendar 0 None (Some []) ≠ Some 7%nat.
Proof. split; [reflexivity | discriminate]. Qed.

(** C6 (amended).  An empty sequence of results (or no sequence at all) is
    not an error: the statistics are zero, the subject and version maps, the
    score distribution and the recent trend are empty. *)
Theorem empty_results_give_zeroed_analytics (env : DateEnv.t) (today : Z) :
  OMRAnalytics.loadAnalyticsData env today None (Some []) = Some noAnalytics
  ∧ OMRAnalytics.loadAnalyticsData env today None None = Some noAnalytics.
Proof. split; reflexivity. Qed.

(** ** Score distribution *)

Section distribution_facts.
Import OMRAnalytics.

Lemma num_le (a b : Z) : (JS.num a ≤ JS.num b)%Qc ↔ a ≤ b.
Proof. unfold Qcle. rewrite !this_num. by rewrite <- Zle_Qle. Qed.

Lemma count_cons {A} (P : A → Prop) `{∀ x, Decision (P x)} (x : A) (l : list A) :
  Z.of_nat (length (filter P (x :: l)))
  = (if decide (P x) then 1 else 0) + Z.of_nat (length (filter P l)).
Proof. rewrite filter_cons. case_decide; simpl length; lia. Qed.

(** The buckets a score falls in are counted once more. *)
Lemma distributionTotal_cons (score : Qc) (scores : list Qc) :
  distributionTotal (distribution (score :: scores))
  = distributionTotal (distribution [score])
    + distributionTotal (distribution scores).
Proof.
  unfold distributionTotal, distribution, scoreRanges. simpl.
  rewrite !count_cons, !filter_nil. simpl length. lia.
Qed.

Lemma in_bucket_decide {A} (min max k : Z) (x y : A) :
  (if decide ((JS.num min ≤ JS.num k)%Qc ∧ (JS.num k ≤ JS.num max)%Qc)
   then x else y)
  = (if decide (min ≤ k ≤ max) then x else y).
Proof. apply decide_ext. by rewrite !num_le. Qed.

(** A whole percentage between 0 and 100 falls in exactly one bucket. *)
Lemma whole_percentage_in_one_bucket (k : Z) :
  0 ≤ k ≤ 100 → distributionTotal (distribution [JS.num k]) = 1.
Proof.
  intros Hk. unfold distributionTotal, distribution, scoreRanges. simpl.
  rewrite !count_cons, !filter_nil. simpl length.
  rewrite !in_bucket_decide.
  repeat case_decide; lia.
Qed.

Lemma whole_percentages_total (scores : list Qc) :
  Forall (λ score, ∃ k, 0 ≤ k ≤ 100 ∧ score = JS.num k) scores →
  distributionTotal (distribution scores) = Z.of_nat (length scores).
Proof.
  induction 1 as [|score scores (k & Hk & ->) _ IH]; [reflexivity|].
  rewrite distributionTotal_cons, whole_percentage_in_one_bucket, IH by done.
  simpl length. lia.
Qed.

End distribution_facts.

(** C7 at a failing input: one result with percentage 49.5 (99 correct
    answers against a key of 200 questions).  It lies above the bucket
    "0-49%" ([score <= 49]) and below "50-59%" ([score >= 50]): every bucket
    count is 0 and the counts sum to 0, for one result. *)
Theorem percentage_between_buckets_is_not_counted
    (env : DateEnv.t) (today : Z) :
  let results := [resultWith (JS.num 495 / JS.num 10)%Qc] in
  OMRAnalytics.scoreDistribution (OMRAnalytics.analyticsOf env today results)
  = [ ("90-100%", 0); ("80-89%", 0); ("70-79%", 0); ("60-69%", 0);
      ("50-59%", 0); ("0-49%", 0) ]
  ∧ OMRAnalytics.distributionTotal
      (OMRAnalytics.scoreDistribution (OMRAnalytics.analyticsOf env today results))
    = 0
  ∧ length results = 1%nat.
Proof.
  intros results.
  assert (OMRAnalytics.scoreDistribution
            (OMRAnalytics.analyticsOf env today results)
          = OMRAnalytics.distribution [(JS.num 495 / JS.num 10)%Qc]) as ->
    by reflexivity.
  repeat split; vm_compute; reflexivity.
Qed.

(** The stub writes that percentage for 99 correct answers and a key with
    [total_questions] 200. *)
Example percentage_of_99_over_200 :
  OMRUpload.percentageOf 99
    {| AnswerKey.id := "k2"; AnswerKey.name := "Long"; AnswerKey.version := "B";
       AnswerKey.subject_breakdown := ∅; AnswerKey.answers := replicate 200 1;
       AnswerKey.total_questions := 200; AnswerKey.max_score := 200 |}
  = (JS.num 495 / JS.num 10)%Qc.
Proof. apply Qc_is_canon. vm_compute. reflexivity. Qed.

(** ** CSV export *)

Section export_facts.
Import OMRResults.

Lemma numberOrEmpty_zero : numberOrEmpty (Some 0%Qc) = CellString "".
Proof. reflexivity. Qed.

Lemma numberOrEmpty_missing : numberOrEmpty None = CellString "".
Proof. reflexivity. Qed.

(** The cell of a numeric column is [field || '']. *)
Lemma csvRow_numeric_column dateOf (sheet : OMRSheet.t) (r : SheetResult.t)
    (column : NumericColumn) (i : nat) :
  OMRSheet.result sheet = Some r →
  columnIndex column = Some i →
  csvRow dateOf sheet !! i = Some (numberOrEmpty (fieldOf r column)).
Proof.
  intros Hr Hi. unfold csvRow, subjectScore. rewrite Hr.
  destruct column as [| |subject| | | |]; simpl in Hi;
    try (injection Hi as <-; reflexivity).
  unfold exportedSubjects, list_find in Hi. simpl in Hi.
  repeat (case_decide;
          [subst subject; simpl in Hi; injection Hi as <-; reflexivity|]).
  simpl in Hi. discriminate.
Qed.

Lemma csvRow_without_result dateOf (sheet : OMRSheet.t)
    (column : NumericColumn) (i : nat) :
  columnIndex column = Some i →
  csvRow dateOf (withoutResult sheet) !! i = Some (CellString "").
Proof.
  intros Hi. unfold csvRow, subjectScore, withoutResult.
  destruct column as [| |subject| | | |]; simpl in Hi;
    try (injection Hi as <-; reflexivity).
  unfold exportedSubjects, list_find in Hi. simpl in Hi.
  repeat (case_decide;
          [subst subject; simpl in Hi; injection Hi as <-; reflexivity|]).
  simpl in Hi. discriminate.
Qed.

End export_facts.

(** C9.  In a row of the export, the cell of a numeric column whose field is
    0 is the empty string, and so is the cell of that column when the sheet
    has no result: both print as two quotes. *)
Theorem zero_exports_like_no_result
    (numberToString : Qc → string) (dateOf : Z → string)
    (sheet : OMRSheet.t) (r : SheetResult.t)
    (column : OMRResults.NumericColumn) (i : nat) :
  OMRSheet.result sheet = Some r →
  OMRResults.columnIndex column = Some i →
  OMRResults.fieldOf r column = Some 0%Qc →
  OMRResults.csvRow dateOf sheet !! i = Some (OMRResults.CellString "")
  ∧ OMRResults.csvRow dateOf (OMRResults.withoutResult sheet) !! i
    = Some (OMRResults.CellString "")
  ∧ OMRResults.renderCell numberToString <$> OMRResults.csvRow dateOf sheet !! i
    = Some (OMRResults.quote ++ OMRResults.quote)%string
  ∧ OMRResults.renderCell numberToString
      <$> OMRResults.csvRow dateOf (OMRResults.withoutResult sheet) !! i
    = Some (OMRResults.quote ++ OMRResults.quote)%string.
Proof.
  intros Hr Hi Hzero.
  rewrite (csvRow_numeric_column dateOf sheet r column i Hr Hi), Hzero.
  rewrite (csvRow_without_result dateOf sheet column i Hi).
  rewrite numberOrEmpty_zero. repeat split.
Qed.

Lemma zero_exports_like_no_result_witness :
  let sheet := sheetWith (Some allUnanswered) in
  OMRResults.csvRow pretty sheet !! 5%nat = Some (OMRResults.CellString "")
  ∧ OMRResults.csvRow pretty (OMRResults.withoutResult sheet) !! 5%nat
    = Some (OMRResults.CellString "").
Proof.
  intros sheet.
  assert (OMRSheet.result sheet = Some allUnanswered) as Hr by reflexivity.
  assert (OMRResults.columnIndex OMRResults.TotalScore = Some 5%nat) as Hi
    by reflexivity.
  assert (OMRResults.fieldOf allUnanswered OMRResults.TotalScore = Some 0%Qc)
    as Hzero by (simpl; f_equal; apply Qc_is_canon; reflexivity).
  destruct (zero_exports_like_no_result (λ n : Qc, pretty (Qfloor n)) pretty
              sheet allUnanswered
              OMRResults.TotalScore 5 Hr Hi Hzero) as (Hcell & Hmissing & _).
  exact (conj Hcell Hmissing).
Defined.

(** The exported line of a sheet whose answers are all unanswered, and of
    the same sheet before it has a result. *)
Example export_of_all_unanswered :
  OMRResults.csvRow pretty (sheetWith (Some allUnanswered))
  = [ OMRResults.CellString "Asha"; OMRResults.CellString "";
      OMRResults.CellString "17"; OMRResults.CellString "A";
      OMRResults.CellString "completed";
      OMRResults.CellString ""; OMRResults.CellString "";
      OMRResults.CellString ""; OMRResults.CellString "";
      OMRResults.CellString ""; OMRResults.CellString "";
      OMRResults.CellString "";
      OMRResults.CellString ""; OMRResults.CellString "";
      OMRResults.CellNumber (JS.num 100); OMRResults.CellNumber (JS.num 90);
      OMRResults.CellString "0" ].
Proof. vm_compute. reflexivity. Qed.

(** ** The detected answers of a run *)

Section run_facts.
Import OMRUpload.

Lemma Array_from_length {A} (f : Rand A) (n : nat) :
  ∀ pos, length (Array_from n f pos).1 = n.
Proof.
  induction n as [|n IH]; intros pos; [reflexivity|].
  simpl. unfold mbind, Rand_bind.
  destruct (f pos) as [a pos1]. specialize (IH pos1).
  destruct (Array_from n f pos1) as [rest pos2]. simpl in *. by rewrite IH.
Qed.

(** The stub always detects 100 answers. *)
Lemma generateDetectedAnswers_length draws pos :
  length (generateDetectedAnswers draws pos).1 = 100%nat.
Proof. apply Array_from_length. Qed.

(** The counters of the row of a run add up to the 100 detected answers,
    when the key holds at least 100 answers. *)
Lemma inserted_counts_total draws table selectedVersion sheetId pos
    answerKey others row :
  selectAnswerKeys table selectedVersion = answerKey :: others →
  (100 ≤ length (AnswerKey.answers answerKey))%nat →
  insertedRow (simulateOMRProcessing draws table selectedVersion sheetId pos).1
    = Some row →
  OmrResult.correct_answers row + OmrResult.incorrect_answers row
  + OmrResult.unanswered row = 100.
Proof.
  intros Hsel Hkey Hrow.
  rewrite (simulateOMRProcessing_inserted _ _ _ _ _ _ _ Hsel) in Hrow.
  injection Hrow as <-. simpl.
  pose proof (generateDetectedAnswers_length draws pos) as Hlen.
  set (detected := (generateDetectedAnswers draws pos).1) in *.
  destruct (forEach_tally (AnswerKey.answers answerKey) detected 0
              {| correct := 0; incorrect := 0; unanswered := 0 |})
    as (Hc & Hi & Hu); [lia|].
  rewrite drop_0 in Hc, Hi, Hu. simpl in Hc, Hi, Hu.
  pose proof (countVerdict_total
                (Scorer.verdicts detected (AnswerKey.answers answerKey))) as Htot.
  unfold Scorer.verdicts in Htot at 4. rewrite length_zip_with in Htot.
  unfold scoreAnswers. lia.
Qed.

End run_facts.

(** * Further properties of the sources *)

(** ** The row written by [simulateOMRProcessing] *)

(** A goal [x = y] on [Qc] is moved to [Q]. *)
Ltac qc_eq := apply Qc_is_canon; qc_push; q_consts.

Section stub_facts.
Import OMRUpload.

Lemma Array_from_Forall {A} (P : A → Prop) (f : Rand A) :
  (∀ pos, P (f pos).1) → ∀ n pos, Forall P (Array_from n f pos).1.
Proof.
  intros Hf. induction n as [|n IH]; intros pos; [by constructor|].
  simpl. unfold mbind, Rand_bind.
  pose proof (Hf pos) as Ha. destruct (f pos) as [a pos1].
  specialize (IH pos1). destruct (Array_from n f pos1) as [rest pos2].
  simpl in *. by constructor.
Qed.

Lemma floor_of_draw_times_4 (r : Qc) :
  (0 ≤ r)%Qc → (r < 1)%Qc → 0 ≤ JS.Math_floor (r * JS.num 4)%Qc ≤ 3.
Proof.
  intros H0 H1. unfold JS.Math_floor.
  pose proof (Qfloor_le (r * JS.num 4)%Qc) as Hfl.
  pose proof (Qlt_floor (r * JS.num 4)%Qc) as Hfu.
  set (n := Qfloor (r * JS.num 4)%Qc) in *. clearbody n.
  assert (inject_Z n < inject_Z 4)%Q as Hup by (qc_to_q; q_consts; lra).
  assert (inject_Z (-1) < inject_Z n)%Q as Hlow.
  { qc_to_q. q_consts. change (inject_Z (-1)) with (-1 # 1)%Q. lra. }
  rewrite <- Zlt_Qlt in Hup, Hlow. lia.
Qed.

Lemma randomAnswer_range draws :
  (∀ n, (0 ≤ draws n)%Qc ∧ (draws n < 1)%Qc) →
  ∀ pos, 0 ≤ (randomAnswer draws pos).1 ≤ 4.
Proof.
  intros Hdraws pos. unfold randomAnswer, mbind, Rand_bind, Math_random.
  case_decide; simpl; [|lia].
  destruct (Hdraws (S pos)) as [H0 H1].
  pose proof (floor_of_draw_times_4 _ H0 H1). lia.
Qed.

(** One step of the scoring loop adds one to the sum of the counters and
    lowers none of them. *)
Lemma tallyStep_total correctAnswers t answer index :
  let t' := tallyStep correctAnswers t answer index in
  correct t' + incorrect t' + unanswered t'
  = correct t + incorrect t + unanswered t + 1
  ∧ correct t ≤ correct t' ∧ incorrect t ≤ incorrect t'
  ∧ unanswered t ≤ unanswered t'.
Proof.
  unfold tallyStep. destruct (answer =? 0); [simpl; lia|].
  destruct (JS.strict_eq _ _); simpl; lia.
Qed.

Lemma forEach_total correctAnswers detectedAnswers :
  ∀ index t,
    let t' := forEach (tallyStep correctAnswers) detectedAnswers index t in
    correct t' + incorrect t' + unanswered t'
    = correct t + incorrect t + unanswered t
      + Z.of_nat (length detectedAnswers)
    ∧ correct t ≤ correct t' ∧ incorrect t ≤ incorrect t'
    ∧ unanswered t ≤ unanswered t'.
Proof.
  induction detectedAnswers as [|answer rest IH]; intros index t.
  - simpl. lia.
  - simpl forEach. cbv zeta.
    pose proof (tallyStep_total correctAnswers t answer index) as Hstep.
    pose proof (IH (S index) (tallyStep correctAnswers t answer index)) as Hrest.
    cbv zeta in Hstep, Hrest. simpl length. lia.
Qed.

End stub_facts.

(** X1.  With every draw in [0, 1), the stub detects exactly 100 answers and
    each of them is 0 (no answer) or an option index from 1 to 4. *)
Theorem detected_answers_are_options (draws : nat → Qc) (pos : nat) :
  (∀ n, (0 ≤ draws n)%Qc ∧ (draws n < 1)%Qc) →
  let detectedAnswers := (OMRUpload.generateDetectedAnswers draws pos).1 in
  length detectedAnswers = 100%nat
  ∧ Forall (λ answer, 0 ≤ answer ≤ numOptions) detectedAnswers.
Proof.
  intros Hdraws detectedAnswers. split.
  - apply generateDetectedAnswers_length.
  - unfold detectedAnswers, OMRUpload.generateDetectedAnswers, numOptions.
    apply (Array_from_Forall (λ answer, 0 ≤ answer ≤ 4)).
    by apply randomAnswer_range.
Qed.

Lemma detected_answers_are_options_witness :
  let draws := λ n : nat, if Nat.even n then (JS.num 1 / JS.num 2)%Qc else 0%Qc in
  let detectedAnswers := (OMRUpload.generateDetectedAnswers draws 0%nat).1 in
  length detectedAnswers = 100%nat
  ∧ Forall (λ answer, 0 ≤ answer ≤ numOptions) detectedAnswers.
Proof.
  intros draws.
  assert (∀ n, (0 ≤ draws n)%Qc ∧ (draws n < 1)%Qc) as Hdraws.
  { intros n. unfold draws. destruct (Nat.even n);
      (split; [discriminate | reflexivity]). }
  exact (detected_answers_are_options draws 0%nat Hdraws).
Defined.

(** X2.  Whatever answer key the query returns (any length, any
    [total_questions]), the row written by the stub holds 100 detected
    answers, counters that are not negative and add up to 100, and a
    [total_score] equal to the number of correct answers. *)
Theorem inserted_row_counts_100 (draws : nat → Qc) (table : list AnswerKey.t)
    (selectedVersion sheetId : string) (pos : nat) (row : OmrResult.t) :
  OMRUpload.insertedRow
    (OMRUpload.simulateOMRProcessing draws table selectedVersion sheetId pos).1
    = Some row →
  length (OmrResult.detected_answers row) = 100%nat
  ∧ OmrResult.correct_answers row + OmrResult.incorrect_answers row
    + OmrResult.unanswered row = 100
  ∧ 0 ≤ OmrResult.correct_answers row
  ∧ 0 ≤ OmrResult.incorrect_answers row
  ∧ 0 ≤ OmrResult.unanswered row
  ∧ OmrResult.total_score row = OmrResult.correct_answers row.
Proof.
  intros Hrow.
  destruct (insertedRow_selects _ _ _ _ _ _ Hrow) as (answerKey & others & Hsel).
  rewrite (simulateOMRProcessing_inserted _ _ _ _ _ _ _ Hsel) in Hrow.
  injection Hrow as <-. simpl.
  pose proof (generateDetectedAnswers_length draws pos) as Hlen.
  pose proof (forEach_total (AnswerKey.answers answerKey)
                (OMRUpload.generateDetectedAnswers draws pos).1 0
                {| OMRUpload.correct := 0; OMRUpload.incorrect := 0;
                   OMRUpload.unanswered := 0 |}) as Htotal.
  cbv zeta in Htotal. simpl in Htotal. rewrite Hlen in Htotal.
  unfold OMRUpload.scoreAnswers. repeat split; try done; lia.
Qed.

Lemma inserted_row_counts_100_witness :
  let answerKey :=
    {| AnswerKey.id := "k1"; AnswerKey.name := "Short"; AnswerKey.version := "A";
       AnswerKey.subject_breakdown := ∅; AnswerKey.answers := [1; 2; 3];
       AnswerKey.total_questions := 3; AnswerKey.max_score := 3 |} in
  let draws := λ _ : nat, 0%Qc in
  ∃ row,
    OMRUpload.insertedRow
      (OMRUpload.simulateOMRProcessing draws [answerKey] "A" "sheet-1" 0%nat).1
      = Some row
    ∧ OmrResult.correct_answers row + OmrResult.incorrect_answers row
      + OmrResult.unanswered row = 100.
Proof.
  intros answerKey draws.
  assert (OMRUpload.selectAnswerKeys [answerKey] "A" = [answerKey]) as Hsel
    by reflexivity.
  pose proof (simulateOMRProcessing_inserted draws [answerKey] "A" "sheet-1" 0%nat
                answerKey [] Hsel) as Hrow.
  cbv zeta in Hrow.
  eexists. split; [exact Hrow|].
  exact (proj1 (proj2 (inserted_row_counts_100 draws [answerKey] "A" "sheet-1"
                         0%nat _ Hrow))).
Defined.

Section two_decimals_facts.

Lemma toFixed2_magnitude_hundredths (m : Z) :
  JS.toFixed2_magnitude (JS.num m / JS.num 100)%Qc = m.
Proof.
  rewrite toFixed2_magnitude_floor. apply Qfloor_unique.
  - qc_push. q_consts. lra.
  - qc_push. q_consts. lra.
Qed.

Lemma num_opp_hundredths (n : Z) :
  (- (JS.num n / JS.num 100))%Qc = (JS.num (- n) / JS.num 100)%Qc.
Proof. qc_eq. lra. Qed.

(** [toFixed(2)] prints a number of hundredths as it is. *)
Lemma toFixed2_hundredths (n : Z) :
  JS.toFixed2 (JS.num n / JS.num 100)%Qc = n.
Proof.
  unfold JS.toFixed2. case_decide.
  - rewrite num_opp_hundredths, toFixed2_magnitude_hundredths. lia.
  - apply toFixed2_magnitude_hundredths.
Qed.

Lemma whole_percentage_of_hundred (c : Z) :
  (JS.num c / JS.num 100 * JS.num 100)%Qc = (JS.num (100 * c) / JS.num 100)%Qc.
Proof. qc_eq. rewrite inject_Z_mult. q_consts. lra. Qed.

Lemma hundredths_of_whole (c : Z) :
  (JS.num (100 * c) / JS.num 100)%Qc = JS.num c.
Proof. qc_eq. rewrite inject_Z_mult. q_consts. lra. Qed.

End two_decimals_facts.

(** X3.  For an answer key with [total_questions] 100 (every key the form
    saves and both sample keys), the stored percentage is the number of
    correct answers itself, between 0 and 100: the rounding changes
    nothing. *)
Theorem percentage_is_score_for_100_questions
    (draws : nat → Qc) (table : list AnswerKey.t) (selectedVersion sheetId : string)
    (pos : nat) (answerKey : AnswerKey.t) (others : list AnswerKey.t)
    (row : OmrResult.t) :
  OMRUpload.selectAnswerKeys table selectedVersion = answerKey :: others →
  AnswerKey.total_questions answerKey = 100 →
  OMRUpload.insertedRow
    (OMRUpload.simulateOMRProcessing draws table selectedVersion sheetId pos).1
    = Some row →
  OmrResult.percentage row = JS.num (OmrResult.total_score row)
  ∧ 0 ≤ OmrResult.total_score row ≤ 100.
Proof.
  intros Hsel Hquestions Hrow.
  rewrite (simulateOMRProcessing_inserted _ _ _ _ _ _ _ Hsel) in Hrow.
  injection Hrow as <-. simpl. split.
  - unfold OMRUpload.percentageOf. rewrite Hquestions.
    rewrite whole_percentage_of_hundred, toFixed2_hundredths.
    apply hundredths_of_whole.
  - pose proof (generateDetectedAnswers_length draws pos) as Hlen.
    pose proof (forEach_total (AnswerKey.answers answerKey)
                  (OMRUpload.generateDetectedAnswers draws pos).1 0
                  {| OMRUpload.correct := 0; OMRUpload.incorrect := 0;
                     OMRUpload.unanswered := 0 |}) as Htotal.
    cbv zeta in Htotal. simpl in Htotal. rewrite Hlen in Htotal.
    unfold OMRUpload.scoreAnswers. lia.
Qed.

Lemma percentage_is_score_for_100_questions_witness :
  let answerKey :=
    {| AnswerKey.id := "k1"; AnswerKey.name := "Sample Exam 2024";
       AnswerKey.version := "A"; AnswerKey.subject_breakdown := ∅;
       AnswerKey.answers := replicate 100 1;
       AnswerKey.total_questions := 100; AnswerKey.max_score := 100 |} in
  let draws := λ n : nat, if Nat.even n then (JS.num 1 / JS.num 2)%Qc else 0%Qc in
  ∃ row,
    OMRUpload.insertedRow
      (OMRUpload.simulateOMRProcessing draws [answerKey] "A" "sheet-1" 0%nat).1
      = Some row
    ∧ OmrResult.percentage row = JS.num (OmrResult.total_score row).
Proof.
  intros answerKey draws.
  assert (OMRUpload.selectAnswerKeys [answerKey] "A" = [answerKey]) as Hsel
    by reflexivity.
  assert (AnswerKey.total_questions answerKey = 100) as Hquestions by reflexivity.
  pose proof (simulateOMRProcessing_inserted draws [answerKey] "A" "sheet-1" 0%nat
                answerKey [] Hsel) as Hrow.
  cbv zeta in Hrow.
  eexists. split; [exact Hrow|].
  exact (proj1 (percentage_is_score_for_100_questions draws [answerKey] "A"
                  "sheet-1" 0%nat answerKey [] _ Hsel Hquestions Hrow)).
Defined.

(** ** Subject scores, for any range *)

Section subject_bounds_facts.
Import OMRUpload.



End subject_bounds_facts.



(** ** The answers text of the form *)

Section answers_text_facts.
Import JSString.

Lemma append_cons (a : ascii) (d s : string) :
  String a d +:+ s = String a (d +:+ s).
Proof. reflexivity. Qed.

Lemma append_snoc (d : string) (c : ascii) (s : string) :
  d +:+ String c s = (d +:+ String c EmptyString) +:+ s.
Proof.
  induction d as [|a d IH]; [done|]. rewrite !append_cons. f_equal. exact IH.
Qed.

Lemma append_empty (d : string) : d +:+ EmptyString = d.
Proof. induction d as [|a d IH]; [done|]. rewrite append_cons. f_equal. exact IH. Qed.

Lemma stringForall_app (P : ascii → Prop) (s t : string) :
  stringForall P (s +:+ t) ↔ stringForall P s ∧ stringForall P t.
Proof.
  induction s as [|c s IH]; [simpl; tauto|].
  rewrite append_cons. simpl. rewrite IH. tauto.
Qed.

Lemma stringForall_impl (P Q : ascii → Prop) (s : string) :
  (∀ c, P c → Q c) → stringForall P s → stringForall Q s.
Proof. intros HPQ. induction s as [|c s IH]; simpl; [done|]. intuition. Qed.

Lemma pretty_N_char_digit (k : N) :
  (k < 10)%N →
  digitValue 10 (pretty_N_char k) = Some (Z.of_N k) ∧ isDigit (pretty_N_char k).
Proof.
  intros Hk.
  assert (k = 0 ∨ k = 1 ∨ k = 2 ∨ k = 3 ∨ k = 4 ∨ k = 5 ∨ k = 6 ∨ k = 7
          ∨ k = 8 ∨ k = 9)%N as Hcases by lia.
  assert (digitValue 10 (pretty_N_char k) = Some (Z.of_N k)) as Hvalue.
  { repeat (destruct Hcases as [->|Hcases]); try subst k; reflexivity. }
  split; [done|]. exists (Z.of_N k). split; [lia|]. split; [done|].
  repeat (destruct Hcases as [->|Hcases]); try subst k;
    repeat split; discriminate.
Qed.

(** The decimal digits of a positive number. *)
Lemma pretty_N_go_digits (x : N) :
  ∀ s, ∃ d, pretty_N_go x s = d +:+ s ∧ stringForall isDigit d
            ∧ ((0 < x)%N → d ≠ EmptyString).
Proof.
  induction (N.lt_wf_0 x) as [x _ IH]. intros s.
  destruct (decide (x = 0)%N) as [->|Hx].
  - exists EmptyString. rewrite pretty_N_go_0. split; [done|]. split; [done|lia].
  - rewrite pretty_N_go_step by lia.
    destruct (IH (x `div` 10)%N) with (s := String (pretty_N_char (x `mod` 10)) s)
      as (d & Heq & Hd & _).
    { apply N.div_lt; lia. }
    exists (d +:+ String (pretty_N_char (x `mod` 10)) EmptyString).
    rewrite Heq. split; [|split].
    + apply append_snoc.
    + apply stringForall_app. split; [done|]. simpl. split; [|done].
      apply pretty_N_char_digit. apply N.mod_lt. lia.
    + intros _. clear. destruct d; discriminate.
Qed.

(** Reading the digits back gives the number. *)
Lemma readDigits_pretty_N_go (x : N) :
  (0 < x)%N →
  ∀ s, readDigits 10 (pretty_N_go x s) None = readDigits 10 s (Some (Z.of_N x)).
Proof.
  induction (N.lt_wf_0 x) as [x _ IH]. intros Hx s.
  rewrite pretty_N_go_step by done.
  assert (x `mod` 10 < 10)%N as Hmod by (apply N.mod_lt; lia).
  destruct (pretty_N_char_digit _ Hmod) as [Hvalue _].
  pose proof (N.div_mod x 10) as Hdiv.
  destruct (decide (x `div` 10 = 0)%N) as [Hzero|Hpos].
  - rewrite Hzero, pretty_N_go_0. simpl readDigits. rewrite Hvalue.
    simpl default. f_equal. f_equal. lia.
  - rewrite IH; [|apply N.div_lt; lia|lia].
    simpl readDigits. rewrite Hvalue. simpl default. f_equal. f_equal. lia.
Qed.

(** The text of an integer: an optional minus sign and its digits. *)
Lemma pretty_Z_digits (z : Z) :
  ∃ d, stringForall isDigit d ∧ d ≠ EmptyString
       ∧ readDigits 10 d None = Some (Z.abs z)
       ∧ pretty z = (if z <? 0 then "-" +:+ d else d).
Proof.
  assert (∀ p : positive,
            ∃ d, stringForall isDigit d ∧ d ≠ EmptyString
                 ∧ readDigits 10 d None = Some (Z.pos p)
                 ∧ pretty (N.pos p) = d) as Hpos.
  { intros p.
    destruct (pretty_N_go_digits (N.pos p) EmptyString) as (d & Heq & Hd & Hne).
    rewrite append_empty in Heq.
    exists d. split; [done|]. split; [apply Hne; lia|]. split.
    - rewrite <- Heq, readDigits_pretty_N_go by lia. reflexivity.
    - unfold pretty, pretty_N. by rewrite decide_False. }
  destruct z as [|p|p].
  - exists "0". repeat split; try done.
    apply (pretty_N_char_digit 0). lia.
  - destruct (Hpos p) as (d & ? & ? & ? & ?). exists d. by repeat split.
  - destruct (Hpos p) as (d & ? & ? & ? & Hp). exists d. repeat split; try done.
    unfold pretty, pretty_Z. simpl. f_equal. exact Hp.
Qed.

Lemma trimEnd_plain (s : string) :
  stringForall (λ c, isWhiteSpace c = false) s → trimEnd s = s.
Proof.
  induction s as [|c s IH]; simpl; [done|]. intros [Hc Hs].
  rewrite (IH Hs), Hc. by destruct s.
Qed.

Lemma split_plain (s : string) :
  stringForall (λ c, c ≠ ","%char) s → split ","%char s = [s].
Proof.
  induction s as [|c s IH]; simpl; [done|]. intros [Hc Hs].
  rewrite (IH Hs). destruct (Ascii.eqb_spec c ","%char); done.
Qed.

Lemma split_plain_comma (s t : string) :
  stringForall (λ c, c ≠ ","%char) s →
  split ","%char (s +:+ "," +:+ t) = s :: split ","%char t.
Proof.
  induction s as [|c s IH]; [done|]. intros [Hc Hs].
  rewrite append_cons. simpl split.
  rewrite (IH Hs). destruct (Ascii.eqb_spec c ","%char); done.
Qed.

(** [parseInt] on a text that starts with a digit reads its digits. *)
Lemma parseInt_digits (d : string) :
  stringForall isDigit d → d ≠ EmptyString →
  parseInt d = readDigits 10 d None
  ∧ parseInt ("-" +:+ d) = Z.opp <$> readDigits 10 d None.
Proof.
  intros Hd Hne. destruct d as [|c d]; [done|]. clear Hne.
  destruct Hd as [(k & _ & _ & Hws & _ & Hminus & Hplus & _) Hrest].
  assert (match d with
          | String c' _ => c' ≠ "x"%char ∧ c' ≠ "X"%char
          | EmptyString => True
          end) as Hsecond.
  { destruct d as [|c' d]; [done|].
    destruct Hrest as [(k' & _ & _ & _ & _ & _ & _ & Hx & HX) _]. done. }
  assert (∀ sign : Z,
            (let '(radix, s3) :=
               match String c d with
               | String "0"%char (String "x"%char rest)
               | String "0"%char (String "X"%char rest) => (16, rest)
               | _ => (10, String c d)
               end in
             (λ n, sign * n) <$> readDigits radix s3 None)
            = (λ n, sign * n) <$> readDigits 10 (String c d) None) as Hradix.
  { intros sign.
    destruct c as [[] [] [] [] [] [] [] []]; try reflexivity.
    destruct d as [|c' d]; [reflexivity|]. destruct Hsecond as [Hx HX].
    destruct c' as [[] [] [] [] [] [] [] []]; try reflexivity; congruence. }
  split.
  - unfold parseInt. simpl trimStart. rewrite Hws.
    assert (match String c d with
            | String "-"%char rest => (-1, rest)
            | String "+"%char rest => (1, rest)
            | _ => (1, String c d)
            end = (1, String c d)) as ->.
    { destruct c as [[] [] [] [] [] [] [] []]; try reflexivity; congruence. }
    rewrite (Hradix 1). destruct (readDigits 10 (String c d) None); simpl; [|done].
    f_equal. lia.
  - unfold parseInt. change (trimStart ("-" +:+ String c d)) with ("-" +:+ String c d).
    change (match "-" +:+ String c d with
            | String "-"%char rest => (-1, rest)
            | String "+"%char rest => (1, rest)
            | _ => (1, "-" +:+ String c d)
            end) with (-1, String c d).
    cbv beta iota. rewrite (Hradix (-1)).
    destruct (readDigits 10 (String c d) None); simpl; [|done].
    f_equal; lia.
Qed.

(** [parseInt(s.trim())] reads back the text of an integer. *)
Lemma parseInt_trim_pretty (z : Z) : parseInt (trim (pretty z)) = Some z.
Proof.
  destruct (pretty_Z_digits z) as (d & Hd & Hne & Hread & Hpretty).
  destruct (parseInt_digits d Hd Hne) as [Hplain Hminus].
  assert (stringForall (λ c, isWhiteSpace c = false) d) as Hws.
  { eapply stringForall_impl; [|exact Hd]. intros c (k & ? & ? & ? & ?). done. }
  rewrite Hpretty. unfold trim. destruct (Z.ltb_spec z 0).
  - change (trimStart ("-" +:+ d)) with ("-" +:+ d).
    rewrite (trimEnd_plain ("-" +:+ d))
      by (change ("-" +:+ d) with (String "-"%char d); simpl; done).
    rewrite Hminus, Hread. simpl. f_equal. lia.
  - assert (trimStart d = d) as ->.
    { destruct d as [|c d]; [done|]. simpl in *. by rewrite (proj1 Hws). }
    rewrite (trimEnd_plain d Hws), Hplain, Hread. f_equal. lia.
Qed.

Lemma pretty_Z_no_comma (z : Z) :
  stringForall (λ c, c ≠ ","%char) (pretty z).
Proof.
  destruct (pretty_Z_digits z) as (d & Hd & _ & _ & ->).
  assert (stringForall (λ c, c ≠ ","%char) d) as Hplain.
  { eapply stringForall_impl; [|exact Hd].
    intros c (k & ? & ? & ? & ? & ?). done. }
  destruct (z <? 0); [|done].
  change ("-" +:+ d) with (String "-"%char d). simpl. done.
Qed.

(** Joining integers with commas and parsing the text gives them back. *)
Lemma parseAnswers_joinAnswers (answers : list Z) :
  AnswerKeyManager.parseAnswers (AnswerKeyDialog.joinAnswers answers) = answers.
Proof.
  unfold AnswerKeyManager.parseAnswers, AnswerKeyDialog.joinAnswers.
  induction answers as [|z answers IH]; [reflexivity|].
  rewrite fmap_cons. simpl String.concat.
  destruct answers as [|z' answers].
  - simpl. rewrite split_plain by apply pretty_Z_no_comma.
    simpl. by rewrite parseInt_trim_pretty.
  - rewrite fmap_cons. rewrite fmap_cons in IH.
    rewrite split_plain_comma by apply pretty_Z_no_comma.
    simpl omap. rewrite parseInt_trim_pretty. f_equal. exact IH.
Qed.

End answers_text_facts.

Section dialog_facts.
Import AnswerKeyManager.

Lemma joinAnswers_not_empty (answers : list Z) :
  answers ≠ [] → AnswerKeyDialog.joinAnswers answers ≠ EmptyString.
Proof.
  intros Hne Hempty.
  pose proof (parseAnswers_joinAnswers answers) as Hparse.
  rewrite Hempty in Hparse. by symmetry in Hparse.
Qed.

(** The trace of [saveAnswerKey] when every check passes. *)
Lemma saveAnswerKey_accepted (formData : FormData.t)
    (editingKey : option AnswerKey.t) (dbError : option string) :
  let answers := parseAnswers (FormData.answersText formData) in
  FormData.name formData ≠ EmptyString →
  FormData.version formData ≠ EmptyString →
  FormData.answersText formData ≠ EmptyString →
  length answers = 100%nat →
  Forall (λ a, 1 ≤ a ≤ 4) answers →
  let keyData :=
    {| KeyData.name := FormData.name formData;
       KeyData.version := FormData.version formData;
       KeyData.subject_breakdown := FormData.subjectBreakdown formData;
       KeyData.answers := answers;
       KeyData.total_questions := 100; KeyData.max_score := 100 |} in
  let write :=
    match editingKey with
    | Some key => UpdateAnswerKey keyData (AnswerKey.id key)
    | None => InsertAnswerKey keyData
    end in
  saveAnswerKey formData editingKey dbError
  = match dbError with
    | Some message =>
        [write; ConsoleError;
         Toast "Error"
           (if isEmpty message then "Failed to save answer key" else message) true]
    | None =>
        [write;
         Toast "Success"
           (match editingKey with
            | Some _ => "Answer key updated successfully"
            | None => "Answer key created successfully"
            end) false;
         CloseDialog; LoadAnswerKeys; OnUpdate]
    end.
Proof.
  intros answers Hname Hversion Htext Hlen Hrange keyData write.
  unfold saveAnswerKey. fold answers.
  rewrite !isEmpty_false by done. simpl.
  rewrite Hlen. simpl. rewrite existsb_in_range by done. reflexivity.
Qed.

(** The trace of [saveAnswerKey] is a single validation toast or starts
    with the one write. *)
Lemma saveAnswerKey_cases (formData : FormData.t)
    (editingKey : option AnswerKey.t) (dbError : option string) :
  let answers := parseAnswers (FormData.answersText formData) in
  (∃ description,
     saveAnswerKey formData editingKey dbError
     = [Toast "Validation Error" description true])
  ∨ (FormData.name formData ≠ EmptyString
     ∧ FormData.version formData ≠ EmptyString
     ∧ FormData.answersText formData ≠ EmptyString
     ∧ length answers = 100%nat
     ∧ Forall (λ a, 1 ≤ a ≤ 4) answers).
Proof.
  intros answers. unfold saveAnswerKey. fold answers. unfold isEmpty.
  destruct (decide (FormData.name formData = EmptyString)) as [Hn|Hn].
  { rewrite bool_decide_eq_true_2 by done. left. eauto. }
  destruct (decide (FormData.version formData = EmptyString)) as [Hv|Hv].
  { rewrite (bool_decide_eq_true_2 (FormData.version formData = _)) by done.
    rewrite orb_true_r. left. eauto. }
  destruct (decide (FormData.answersText formData = EmptyString)) as [Ht|Ht].
  { rewrite (bool_decide_eq_true_2 (FormData.answersText formData = _)) by done.
    rewrite orb_true_r. left. eauto. }
  rewrite !bool_decide_eq_false_2 by done. simpl.
  destruct (Nat.eqb_spec (length answers) 100) as [Hlen|Hlen]; simpl;
    [|left; eauto].
  destruct (existsb (λ a, (a <? 1) || (a >? 4)) answers) eqn:Hex;
    [left; eauto|].
  right. repeat split; try done.
  apply Forall_forall. intros a Ha.
  destruct (decide (1 ≤ a ≤ 4)) as [|Hbad]; [done|].
  assert (existsb (λ a, (a <? 1) || (a >? 4)) answers = true) as Htrue.
  { apply existsb_out_of_range, Exists_exists. exists a. split; [done|lia]. }
  congruence.
Qed.

End dialog_facts.


(** X6.  Editing a stored key that has a name, a version and 100 answers
    from 1 to 4, and saving it without a change, issues one update of that
    key's row with the same name, version, ranges and answers, and with
    [total_questions] and [max_score] set to 100; then the dialog closes. *)
Theorem unchanged_edit_updates_the_key (key : AnswerKey.t) :
  AnswerKey.name key ≠ EmptyString →
  AnswerKey.version key ≠ EmptyString →
  length (AnswerKey.answers key) = 100%nat →
  Forall (λ a, 1 ≤ a ≤ 4) (AnswerKey.answers key) →
  AnswerKeyDialog.save (AnswerKeyDialog.openDialog (Some key)) None
  = [ AnswerKeyManager.UpdateAnswerKey
        {| KeyData.name := AnswerKey.name key;
           KeyData.version := AnswerKey.version key;
           KeyData.subject_breakdown := AnswerKey.subject_breakdown key;
           KeyData.answers := AnswerKey.answers key;
           KeyData.total_questions := 100; KeyData.max_score := 100 |}
        (AnswerKey.id key);
      AnswerKeyManager.Toast "Success" "Answer key updated successfully" false;
      AnswerKeyManager.CloseDialog; AnswerKeyManager.LoadAnswerKeys;
      AnswerKeyManager.OnUpdate ].
Proof.
  intros Hname Hversion Hlen Hrange.
  unfold AnswerKeyDialog.save, AnswerKeyDialog.openDialog.
  cbn [AnswerKeyDialog.formData AnswerKeyDialog.editingKey].
  rewrite saveAnswerKey_accepted; cbn [FormData.name FormData.version
    FormData.answersText FormData.subjectBreakdown];
    rewrite ?parseAnswers_joinAnswers; try done.
  apply joinAnswers_not_empty. intros Hnil. by rewrite Hnil in Hlen.
Qed.

Lemma unchanged_edit_updates_the_key_witness :
  let key :=
    {| AnswerKey.id := "k1"; AnswerKey.name := "Sample Exam 2024";
       AnswerKey.version := "A";
       AnswerKey.subject_breakdown := AnswerKeyDialog.defaultBreakdown;
       AnswerKey.answers := replicate 100 3;
       AnswerKey.total_questions := 100; AnswerKey.max_score := 100 |} in
  AnswerKeyDialog.save (AnswerKeyDialog.openDialog (Some key)) None
  = [ AnswerKeyManager.UpdateAnswerKey
        {| KeyData.name := AnswerKey.name key;
           KeyData.version := AnswerKey.version key;
           KeyData.subject_breakdown := AnswerKey.subject_breakdown key;
           KeyData.answers := AnswerKey.answers key;
           KeyData.total_questions := 100; KeyData.max_score := 100 |}
        (AnswerKey.id key);
      AnswerKeyManager.Toast "Success" "Answer key updated successfully" false;
      AnswerKeyManager.CloseDialog; AnswerKeyManager.LoadAnswerKeys;
      AnswerKeyManager.OnUpdate ].
Proof.
  intros key.
  assert (AnswerKey.name key ≠ EmptyString) as Hname by discriminate.
  assert (AnswerKey.version key ≠ EmptyString) as Hversion by discriminate.
  assert (length (AnswerKey.answers key) = 100%nat) as Hlen by reflexivity.
  assert (Forall (λ a, 1 ≤ a ≤ 4) (AnswerKey.answers key)) as Hrange.
  { apply Forall_replicate. lia. }
  exact (unchanged_edit_updates_the_key key Hname Hversion Hlen Hrange).
Defined.

(** X7.  With every draw in [0, 1), the "Generate Random" button fills the
    form with a text that parses to exactly 100 answers from 1 to 4 and
    leaves the name, the version and the ranges as they were; when the name
    and the version are filled in, saving that form passes validation and
    writes the generated answers. *)
Theorem generated_answers_pass_validation (draws : nat → Qc)
    (prev : FormData.t) (pos : nat)
    (editingKey : option AnswerKey.t) (dbError : option string) :
  (∀ n, (0 ≤ draws n)%Qc ∧ (draws n < 1)%Qc) →
  FormData.name prev ≠ EmptyString →
  FormData.version prev ≠ EmptyString →
  let formData := (AnswerKeyDialog.generateRandomAnswers draws prev pos).1 in
  let answers := AnswerKeyManager.parseAnswers (FormData.answersText formData) in
  length answers = 100%nat
  ∧ Forall (λ a, 1 ≤ a ≤ 4) answers
  ∧ ∃ write rest,
      AnswerKeyManager.saveAnswerKey formData editingKey dbError = write :: rest
      ∧ write =
          let keyData :=
            {| KeyData.name := FormData.name prev;
               KeyData.version := FormData.version prev;
               KeyData.subject_breakdown := FormData.subjectBreakdown prev;
               KeyData.answers := answers;
               KeyData.total_questions := 100; KeyData.max_score := 100 |} in
          match editingKey with
          | Some key => AnswerKeyManager.UpdateAnswerKey keyData (AnswerKey.id key)
          | None => AnswerKeyManager.InsertAnswerKey keyData
          end.
Proof.
  intros Hdraws Hname Hversion formData answers.
  subst answers formData. unfold AnswerKeyDialog.generateRandomAnswers.
  unfold mbind, OMRUpload.Rand_bind, mret, OMRUpload.Rand_ret.
  set (draw := λ pos0 : nat,
         let (r, pos1) := OMRUpload.Math_random draws pos0 in
         (JS.Math_floor (r * JS.num 4)%Qc + 1, pos1)).
  pose proof (Array_from_length draw 100 pos) as Hlen.
  assert (Forall (λ a, 1 ≤ a ≤ 4) (OMRUpload.Array_from 100 draw pos).1) as Hrange.
  { apply (Array_from_Forall (λ a, 1 ≤ a ≤ 4)). intros pos0.
    unfold draw, OMRUpload.Math_random. simpl.
    destruct (Hdraws pos0) as [H0 H1].
    pose proof (floor_of_draw_times_4 (draws pos0) H0 H1). lia. }
  destruct (OMRUpload.Array_from 100 draw pos) as [generated pos'].
  cbn [fst FormData.answersText] in *.
  rewrite parseAnswers_joinAnswers.
  split; [done|]. split; [done|].
  rewrite saveAnswerKey_accepted;
    cbn [FormData.name FormData.version FormData.answersText
         FormData.subjectBreakdown];
    rewrite ?parseAnswers_joinAnswers; try done.
  - destruct dbError; eexists _, _; (split; reflexivity).
  - apply joinAnswers_not_empty. intros Hnil. by rewrite Hnil in Hlen.
Qed.

Lemma generated_answers_pass_validation_witness :
  let draws := λ n : nat, if Nat.even n then (JS.num 1 / JS.num 2)%Qc else 0%Qc in
  let prev :=
    {| FormData.name := "Sample Exam 2024"; FormData.version := "A";
       FormData.answersText := "";
       FormData.subjectBreakdown := AnswerKeyDialog.defaultBreakdown |} in
  let formData := (AnswerKeyDialog.generateRandomAnswers draws prev 0%nat).1 in
  let answers := AnswerKeyManager.parseAnswers (FormData.answersText formData) in
  length answers = 100%nat
  ∧ Forall (λ a, 1 ≤ a ≤ 4) answers
  ∧ ∃ write rest,
      AnswerKeyManager.saveAnswerKey formData None None = write :: rest
      ∧ write =
          AnswerKeyManager.InsertAnswerKey
            {| KeyData.name := FormData.name prev;
               KeyData.version := FormData.version prev;
               KeyData.subject_breakdown := FormData.subjectBreakdown prev;
               KeyData.answers := answers;
               KeyData.total_questions := 100; KeyData.max_score := 100 |}.
Proof.
  intros draws prev.
  assert (∀ n, (0 ≤ draws n)%Qc ∧ (draws n < 1)%Qc) as Hdraws.
  { intros n. unfold draws. destruct (Nat.even n);
      (split; [discriminate | reflexivity]). }
  assert (FormData.name prev ≠ EmptyString) as Hname by discriminate.
  assert (FormData.version prev ≠ EmptyString) as Hversion by discriminate.
  exact (generated_answers_pass_validation draws prev 0%nat None None
           Hdraws Hname Hversion).
Defined.

(** X8.  Whatever the form holds, every row [saveAnswerKey] writes to
    [answer_keys] has a name and a version that are not empty, exactly 100
    answers, each from 1 to 4, and [total_questions] and [max_score] of
    100; it is an update of the edited key's row when a key is being edited
    and an insert otherwise. *)
Theorem written_answer_keys_are_well_formed (formData : FormData.t)
    (editingKey : option AnswerKey.t) (dbError : option string)
    (e : AnswerKeyManager.Effect) :
  e ∈ AnswerKeyManager.saveAnswerKey formData editingKey dbError →
  AnswerKeyManager.persists e = true →
  ∃ keyData,
    e = match editingKey with
        | Some key => AnswerKeyManager.UpdateAnswerKey keyData (AnswerKey.id key)
        | None => AnswerKeyManager.InsertAnswerKey keyData
        end
    ∧ KeyData.name keyData ≠ EmptyString
    ∧ KeyData.version keyData ≠ EmptyString
    ∧ length (KeyData.answers keyData) = 100%nat
    ∧ Forall (λ a, 1 ≤ a ≤ 4) (KeyData.answers keyData)
    ∧ KeyData.total_questions keyData = 100
    ∧ KeyData.max_score keyData = 100.
Proof.
  intros Hin Hpersists.
  destruct (saveAnswerKey_cases formData editingKey dbError)
    as [[description Htoast]|(Hname & Hversion & Htext & Hlen & Hrange)].
  { rewrite Htoast in Hin. apply list_elem_of_singleton in Hin.
    by rewrite Hin in Hpersists. }
  rewrite saveAnswerKey_accepted in Hin by done.
  exists {| KeyData.name := FormData.name formData;
            KeyData.version := FormData.version formData;
            KeyData.subject_breakdown := FormData.subjectBreakdown formData;
            KeyData.answers :=
              AnswerKeyManager.parseAnswers (FormData.answersText formData);
            KeyData.total_questions := 100; KeyData.max_score := 100 |}.
  split; [|by cbn].
  destruct dbError as [message|].
  - apply elem_of_cons in Hin as [->|Hin]; [done|].
    apply elem_of_cons in Hin as [->|Hin]; [done|].
    apply list_elem_of_singleton in Hin. by subst e.
  - apply elem_of_cons in Hin as [->|Hin]; [done|].
    apply elem_of_cons in Hin as [->|Hin]; [done|].
    apply elem_of_cons in Hin as [->|Hin]; [done|].
    apply elem_of_cons in Hin as [->|Hin]; [done|].
    apply list_elem_of_singleton in Hin. by subst e.
Qed.

Lemma written_answer_keys_are_well_formed_witness :
  let formData :=
    {| FormData.name := "Sample Exam 2024"; FormData.version := "A";
       FormData.answersText := AnswerKeyDialog.joinAnswers (replicate 100 2);
       FormData.subjectBreakdown := AnswerKeyDialog.defaultBreakdown |} in
  ∃ keyData,
    AnswerKeyManager.InsertAnswerKey
      {| KeyData.name := "Sample Exam 2024"; KeyData.version := "A";
         KeyData.subject_breakdown := AnswerKeyDialog.defaultBreakdown;
         KeyData.answers := replicate 100 2;
         KeyData.total_questions := 100; KeyData.max_score := 100 |}
    = AnswerKeyManager.InsertAnswerKey keyData
    ∧ KeyData.name keyData ≠ EmptyString
    ∧ KeyData.version keyData ≠ EmptyString
    ∧ length (KeyData.answers keyData) = 100%nat
    ∧ Forall (λ a, 1 ≤ a ≤ 4) (KeyData.answers keyData)
    ∧ KeyData.total_questions keyData = 100
    ∧ KeyData.max_score keyData = 100.
Proof.
  intros formData.
  set (e := AnswerKeyManager.InsertAnswerKey
      {| KeyData.name := "Sample Exam 2024"; KeyData.version := "A";
         KeyData.subject_breakdown := AnswerKeyDialog.defaultBreakdown;
         KeyData.answers := replicate 100 2;
         KeyData.total_questions := 100; KeyData.max_score := 100 |}).
  assert (e ∈ AnswerKeyManager.saveAnswerKey formData None (Some "timeout")) as Hin.
  { vm_compute. left. }
  assert (AnswerKeyManager.persists e = true) as Hpersists by reflexivity.
  exact (written_answer_keys_are_well_formed formData None (Some "timeout") e
           Hin Hpersists).
Defined.

(** X9.  The dialog is closed, the list reloaded and the parent notified
    only when the store accepted the write: if [saveAnswerKey] performs any
    of these three, the store replied without an error and the trace is
    exactly one write, the success toast, and the three in that order.  On
    a validation failure or a store error the dialog stays open. *)
Theorem dialog_closes_only_after_accepted_write (formData : FormData.t)
    (editingKey : option AnswerKey.t) (dbError : option string)
    (e : AnswerKeyManager.Effect) :
  e ∈ AnswerKeyManager.saveAnswerKey formData editingKey dbError →
  e = AnswerKeyManager.CloseDialog ∨ e = AnswerKeyManager.LoadAnswerKeys
    ∨ e = AnswerKeyManager.OnUpdate →
  dbError = None
  ∧ ∃ write message,
      AnswerKeyManager.persists write = true
      ∧ AnswerKeyManager.saveAnswerKey formData editingKey dbError
        = [write; AnswerKeyManager.Toast "Success" message false;
           AnswerKeyManager.CloseDialog; AnswerKeyManager.LoadAnswerKeys;
           AnswerKeyManager.OnUpdate].
Proof.
  intros Hin He.
  destruct (saveAnswerKey_cases formData editingKey dbError)
    as [[description Htoast]|(Hname & Hversion & Htext & Hlen & Hrange)].
  { rewrite Htoast in Hin. apply list_elem_of_singleton in Hin.
    subst e. by destruct He as [|[|]]. }
  rewrite saveAnswerKey_accepted in * by done.
  destruct dbError as [message|].
  - exfalso.
    repeat (apply elem_of_cons in Hin as [->|Hin];
            [by destruct editingKey, He as [|[|]]|]).
    by apply elem_of_nil in Hin.
  - split; [done|]. eexists _, _. split; [|reflexivity].
    by destruct editingKey.
Qed.

Lemma dialog_closes_only_after_accepted_write_witness :
  let formData :=
    {| FormData.name := "Sample Exam 2024"; FormData.version := "A";
       FormData.answersText := AnswerKeyDialog.joinAnswers (replicate 100 2);
       FormData.subjectBreakdown := AnswerKeyDialog.defaultBreakdown |} in
  (None : option string) = None
  ∧ ∃ write message,
      AnswerKeyManager.persists write = true
      ∧ AnswerKeyManager.saveAnswerKey formData None None
        = [write; AnswerKeyManager.Toast "Success" message false;
           AnswerKeyManager.CloseDialog; AnswerKeyManager.LoadAnswerKeys;
           AnswerKeyManager.OnUpdate].
Proof.
  intros formData.
  assert (AnswerKeyManager.CloseDialog
          ∈ AnswerKeyManager.saveAnswerKey formData None None) as Hin.
  { vm_compute. right. right. left. }
  exact (dialog_closes_only_after_accepted_write formData None None
           AnswerKeyManager.CloseDialog Hin (or_introl eq_refl)).
Defined.

Section statistics_facts.
Import OMRAnalytics.

Lemma num_succ (n : Z) : JS.num (n + 1) = (JS.num n + 1)%Qc.
Proof. qc_eq. lra. Qed.

Lemma num_of_length_cons {A} (x : A) (xs : list A) :
  JS.num (Z.of_nat (length (x :: xs)))
  = (JS.num (Z.of_nat (length xs)) + 1)%Qc.
Proof. simpl length. by rewrite Nat2Z.inj_succ, <- Z.add_1_r, num_succ. Qed.

Lemma num_pos (n : Z) : 0 < n → (0 < JS.num n)%Qc.
Proof.
  intros Hn. unfold Qclt. rewrite this_num.
  change (this 0%Qc) with (inject_Z 0). by rewrite <- Zlt_Qlt.
Qed.

Lemma sum_lower (lo : Qc) (xs : list Qc) :
  Forall (λ y, (lo ≤ y)%Qc) xs →
  (JS.num (Z.of_nat (length xs)) * lo ≤ sum xs)%Qc.
Proof.
  induction 1 as [|x xs Hx _ IH].
  - replace (JS.num (Z.of_nat (length (@nil Qc)))) with 0%Qc
      by (apply Qc_is_canon; reflexivity).
    unfold sum. simpl. rewrite Qcmult_0_l. apply Qcle_refl.
  - rewrite num_of_length_cons, sum_cons.
    replace ((JS.num (Z.of_nat (length xs)) + 1) * lo)%Qc
      with (lo + JS.num (Z.of_nat (length xs)) * lo)%Qc by ring.
    by apply Qcplus_le_compat.
Qed.

Lemma sum_upper (hi : Qc) (xs : list Qc) :
  Forall (λ y, (y ≤ hi)%Qc) xs →
  (sum xs ≤ JS.num (Z.of_nat (length xs)) * hi)%Qc.
Proof.
  induction 1 as [|x xs Hx _ IH].
  - replace (JS.num (Z.of_nat (length (@nil Qc)))) with 0%Qc
      by (apply Qc_is_canon; reflexivity).
    unfold sum. simpl. rewrite Qcmult_0_l. apply Qcle_refl.
  - rewrite num_of_length_cons, sum_cons.
    replace ((JS.num (Z.of_nat (length xs)) + 1) * hi)%Qc
      with (hi + JS.num (Z.of_nat (length xs)) * hi)%Qc by ring.
    by apply Qcplus_le_compat.
Qed.

(** The mean of a non-empty list lies between a lower and an upper bound of
    its elements. *)
Lemma mean_between (lo hi : Qc) (xs : list Qc) :
  xs ≠ [] →
  Forall (λ y, (lo ≤ y)%Qc ∧ (y ≤ hi)%Qc) xs →
  (lo ≤ sum xs / JS.num (Z.of_nat (length xs)))%Qc
  ∧ (sum xs / JS.num (Z.of_nat (length xs)) ≤ hi)%Qc.
Proof.
  intros Hne Hbounds.
  assert (0 < JS.num (Z.of_nat (length xs)))%Qc as Hpos.
  { apply num_pos. destruct xs; [done|]. simpl length. lia. }
  assert (JS.num (Z.of_nat (length xs)) ≠ 0%Qc) as Hnz.
  { intros Hz. rewrite Hz in Hpos. by apply Qclt_not_eq in Hpos. }
  set (n := JS.num (Z.of_nat (length xs))) in *.
  assert (sum xs / n * n = sum xs)%Qc as Hmean.
  { rewrite Qcmult_comm. by apply Qcmult_div_r. }
  split.
  - apply (Qcmult_lt_0_le_reg_r _ _ n Hpos). rewrite Hmean, Qcmult_comm.
    apply sum_lower. eapply Forall_impl; [done|]. by intros y [? ?].
  - apply (Qcmult_lt_0_le_reg_r _ _ n Hpos). rewrite Hmean, (Qcmult_comm hi).
    apply sum_upper. eapply Forall_impl; [done|]. by intros y [? ?].
Qed.

Lemma Math_round_mono (x y : Qc) : (x ≤ y)%Qc → JS.Math_round x ≤ JS.Math_round y.
Proof.
  intros Hxy. unfold JS.Math_round. apply Qfloor_resp_le.
  assert (x + JS.num 1 / JS.num 2 ≤ y + JS.num 1 / JS.num 2)%Qc as Hle.
  { apply Qcplus_le_compat; [done|apply Qcle_refl]. }
  exact Hle.
Qed.

End statistics_facts.

(** X10.  For results that are not empty, the rounded lowest score is at
    most the rounded average score, which is at most the rounded highest
    score; the highest and the lowest are the percentages of some result. *)
Theorem average_between_lowest_and_highest (env : DateEnv.t) (today : Z)
    (results : list ResultRow.t) :
  results ≠ [] →
  let analytics := OMRAnalytics.analyticsOf env today results in
  OMRAnalytics.lowestScore analytics ≤ OMRAnalytics.averageScore analytics
  ∧ OMRAnalytics.averageScore analytics ≤ OMRAnalytics.highestScore analytics
  ∧ (∃ result, result ∈ results
       ∧ OMRAnalytics.lowestScore analytics
         = JS.Math_round (ResultRow.percentage result))
  ∧ (∃ result, result ∈ results
       ∧ OMRAnalytics.highestScore analytics
         = JS.Math_round (ResultRow.percentage result)).
Proof.
  intros Hne analytics. destruct results as [|first others]; [done|].
  subst analytics. unfold OMRAnalytics.analyticsOf.
  cbn [OMRAnalytics.lowestScore OMRAnalytics.averageScore
       OMRAnalytics.highestScore].
  set (scores := ResultRow.percentage <$> first :: others).
  destruct (Math_max_greatest (ResultRow.percentage <$> others)
              (ResultRow.percentage first)) as [Hmax_in Hmax].
  destruct (Math_min_least (ResultRow.percentage <$> others)
              (ResultRow.percentage first)) as [Hmin_in Hmin].
  set (highest := OMRAnalytics.Math_max _ _) in *.
  set (lowest := OMRAnalytics.Math_min _ _) in *.
  assert (Forall (λ y, (lowest ≤ y)%Qc ∧ (y ≤ highest)%Qc) scores) as Hbounds.
  { apply Forall_forall. intros y Hy. split; [by apply Hmin|by apply Hmax]. }
  destruct (mean_between lowest highest scores) as [Hlo Hhi]; [done|done|].
  unfold scores in Hlo, Hhi. rewrite length_fmap in Hlo, Hhi.
  split; [by apply Math_round_mono|]. split; [by apply Math_round_mono|].
  change (ResultRow.percentage first :: (ResultRow.percentage <$> others))
    with (ResultRow.percentage <$> first :: others) in Hmin_in, Hmax_in.
  apply list_elem_of_fmap in Hmin_in as (rmin & Hrmin & Hin_min).
  apply list_elem_of_fmap in Hmax_in as (rmax & Hrmax & Hin_max).
  split; [exists rmin|exists rmax]; by split; [|f_equal].
Qed.

Lemma average_between_lowest_and_highest_witness :
  let results := [resultWith (JS.num 80); resultWith (JS.num 60)] in
  let analytics := OMRAnalytics.analyticsOf utcCalendar 0 results in
  OMRAnalytics.lowestScore analytics ≤ OMRAnalytics.averageScore analytics
  ∧ OMRAnalytics.averageScore analytics ≤ OMRAnalytics.highestScore analytics
  ∧ (∃ result, result ∈ results
       ∧ OMRAnalytics.lowestScore analytics
         = JS.Math_round (ResultRow.percentage result))
  ∧ (∃ result, result ∈ results
       ∧ OMRAnalytics.highestScore analytics
         = JS.Math_round (ResultRow.percentage result)).
Proof.
  intros results.
  assert (results ≠ []) as Hne by discriminate.
  exact (average_between_lowest_and_highest utcCalendar 0 results Hne).
Defined.

Section performance_facts.
Import OMRAnalytics.







End performance_facts.



Section histogram_facts.
Import OMRAnalytics.

Lemma num_le_floor (a : Z) (score : Qc) :
  (JS.num a ≤ score)%Qc → a ≤ Qfloor score.
Proof.
  intros Hle. unfold Qcle in Hle. rewrite this_num in Hle.
  apply Qfloor_resp_le in Hle. by rewrite Qfloor_Z in Hle.
Qed.

Lemma floor_le_num (b : Z) (score : Qc) :
  (score ≤ JS.num b)%Qc → Qfloor score ≤ b.
Proof.
  intros Hle. unfold Qcle in Hle. rewrite this_num in Hle.
  apply Qfloor_resp_le in Hle. by rewrite Qfloor_Z in Hle.
Qed.

Lemma in_bucket_floor (min max : Z) (score : Qc) :
  (JS.num min ≤ score)%Qc ∧ (score ≤ JS.num max)%Qc →
  min ≤ Qfloor score ≤ max.
Proof. intros [Hmin Hmax]. split; [by apply num_le_floor|by apply floor_le_num]. Qed.

(** A score falls in at most one bucket. *)
Lemma score_in_at_most_one_bucket (score : Qc) :
  0 ≤ distributionTotal (distribution [score]) ≤ 1.
Proof.
  unfold distributionTotal, distribution, scoreRanges. simpl.
  rewrite !count_cons, !filter_nil. simpl length.
  repeat match goal with
         | |- context [decide (?P ∧ ?Q)] =>
             destruct (decide (P ∧ Q)) as [?Hin%in_bucket_floor|_]
         end; lia.
Qed.

Lemma distributionTotal_at_most_length (scores : list Qc) :
  0 ≤ distributionTotal (distribution scores) ≤ Z.of_nat (length scores).
Proof.
  induction scores as [|score scores IH]; [done|].
  rewrite distributionTotal_cons.
  pose proof (score_in_at_most_one_bucket score). cbn [length]. lia.
Qed.

End histogram_facts.

(** X13.  The bucket counts of the score distribution never sum to more
    than the number of results: the six buckets are disjoint, so no result
    is counted twice (a result may be counted in none). *)
Theorem distribution_counts_no_result_twice (env : DateEnv.t) (today : Z)
    (results : list ResultRow.t) :
  let analytics := OMRAnalytics.analyticsOf env today results in
  0 ≤ OMRAnalytics.distributionTotal (OMRAnalytics.scoreDistribution analytics)
    ≤ OMRAnalytics.totalStudents analytics.
Proof.
  intros analytics. subst analytics.
  destruct results as [|first others]; [done|].
  unfold OMRAnalytics.analyticsOf.
  cbn [OMRAnalytics.scoreDistribution OMRAnalytics.totalStudents].
  pose proof (distributionTotal_at_most_length
                (ResultRow.percentage <$> first :: others)) as Hle.
  by rewrite length_fmap in Hle.
Qed.

Section trend_facts.
Import OMRAnalytics.

Context {A : Type} (dayOf : A → string).

Lemma count_on_day_or (day : string) (days : list string) (rows : list A) :
  day ∉ days →
  length (filter (λ row, dayOf row ∈ day :: days) rows)
  = (length (filter (λ row, dayOf row = day) rows)
     + length (filter (λ row, dayOf row ∈ days) rows))%nat.
Proof.
  intros Hfresh. induction rows as [|row rows IH]; [done|].
  rewrite !filter_cons.
  destruct (decide (dayOf row = day)) as [Hday|Hday].
  - rewrite decide_True by (rewrite Hday; left).
    rewrite (decide_False (P := dayOf row ∈ days)) by (by rewrite Hday).
    cbn [length]. lia.
  - destruct (decide (dayOf row ∈ days)) as [Hdays|Hdays].
    + rewrite decide_True by (by right). cbn [length]. lia.
    + rewrite decide_False; [done|].
      intros [?|?]%elem_of_cons; done.
Qed.

Lemma count_over_days (days : list string) (rows : list A) :
  NoDup days →
  foldr (λ day n, Z.of_nat (length (filter (λ row, dayOf row = day) rows)) + n)
        0 days
  = Z.of_nat (length (filter (λ row, dayOf row ∈ days) rows)).
Proof.
  induction 1 as [|day days Hfresh _ IH].
  - simpl. rewrite filter_none; [done|].
    intros row _ Hin. by apply elem_of_nil in Hin.
  - simpl foldr. rewrite IH, count_on_day_or by done. lia.
Qed.

End trend_facts.

Lemma trendTotal_days (env : DateEnv.t) (today : Z) (results : list ResultRow.t)
    (offsets : list Z) :
  trendTotal (OMRAnalytics.trendOfDay env today results <$> offsets)
  = foldr (λ day n,
             Z.of_nat (length (filter
               (λ result, DateEnv.toISODate env (ResultRow.created_at result) = day)
               results)) + n)
          0 ((λ i, DateEnv.toISODate env (DateEnv.minusDays env today i))
             <$> offsets).
Proof.
  induction offsets as [|i offsets IH]; [done|].
  rewrite !fmap_cons. unfold trendTotal in *. simpl foldr. by rewrite IH.
Qed.

(** X14.  For results that are not empty the trend has seven entries, and
    when the seven days of the window have distinct ISO dates their counts
    sum to the number of results created on one of those days: each such
    result is counted once, older and later results not at all. *)
Theorem trend_counts_results_of_the_window (env : DateEnv.t) (today : Z)
    (results : list ResultRow.t) :
  results ≠ [] →
  NoDup (windowDays env today) →
  let recentTrends :=
    OMRAnalytics.recentTrends (OMRAnalytics.analyticsOf env today results) in
  length recentTrends = 7%nat
  ∧ trendTotal recentTrends
    = Z.of_nat (length (filter
        (λ result,
           DateEnv.toISODate env (ResultRow.created_at result)
           ∈ windowDays env today)
        results)).
Proof.
  intros Hne Hdays recentTrends. subst recentTrends.
  destruct results as [|first others]; [done|].
  unfold OMRAnalytics.analyticsOf. cbn [OMRAnalytics.recentTrends].
  split; [done|]. unfold OMRAnalytics.trends.
  rewrite trendTotal_days.
  by rewrite (count_over_days
    (λ result, DateEnv.toISODate env (ResultRow.created_at result))).
Qed.

Lemma trend_counts_results_of_the_window_witness :
  let results :=
    [ {| ResultRow.percentage := JS.num 80; ResultRow.subject_scores := ∅;
         ResultRow.sheet_version := "A"; ResultRow.created_at := 0 |};
      {| ResultRow.percentage := JS.num 60; ResultRow.subject_scores := ∅;
         ResultRow.sheet_version := "B";
         ResultRow.created_at := -10 * 86400000 |} ] in
  let recentTrends :=
    OMRAnalytics.recentTrends (OMRAnalytics.analyticsOf utcCalendar 0 results) in
  length recentTrends = 7%nat
  ∧ trendTotal recentTrends
    = Z.of_nat (length (filter
        (λ result,
           DateEnv.toISODate utcCalendar (ResultRow.created_at result)
           ∈ windowDays utcCalendar 0)
        results)).
Proof.
  intros results.
  assert (results ≠ []) as Hne by discriminate.
  assert (NoDup (windowDays utcCalendar 0)) as Hdays.
  { apply (bool_decide_unpack _). vm_compute. exact I. }
  exact (trend_counts_results_of_the_window utcCalendar 0 results Hne Hdays).
Defined.

Section dashboard_facts.
Import OMRDashboard.

Lemma count_two_statuses (a b : string) (sheets : list string) :
  a ≠ b →
  (length (filter (λ status, status = a) sheets)
   + length (filter (λ status, status = b) sheets) ≤ length sheets)%nat.
Proof.
  intros Hab. induction sheets as [|status sheets IH]; [done|].
  rewrite !filter_cons. destruct (decide (status = a)) as [->|Ha].
  - rewrite decide_False by done. cbn [length]. lia.
  - case_decide; cbn [length]; lia.
Qed.

Lemma ratio_percentage (c t : Z) :
  0 ≤ c ≤ t → 0 < t →
  (0 ≤ JS.num c / JS.num t * JS.num 100)%Qc
  ∧ (JS.num c / JS.num t * JS.num 100 ≤ JS.num 100)%Qc.
Proof.
  intros Hc Ht.
  pose proof (num_pos t Ht) as Hpos.
  assert (JS.num t ≠ 0%Qc) as Hnz.
  { intros Hz. rewrite Hz in Hpos. by apply Qclt_not_eq in Hpos. }
  assert (JS.num c / JS.num t * JS.num t = JS.num c)%Qc as Hratio.
  { rewrite Qcmult_comm. by apply Qcmult_div_r. }
  assert (0 ≤ JS.num c / JS.num t)%Qc as Hlo.
  { apply (Qcmult_lt_0_le_reg_r _ _ (JS.num t) Hpos).
    rewrite Hratio, Qcmult_0_l.
    replace 0%Qc with (JS.num 0) by (by apply Qc_is_canon).
    apply num_le. lia. }
  assert (JS.num c / JS.num t ≤ 1)%Qc as Hhi.
  { apply (Qcmult_lt_0_le_reg_r _ _ (JS.num t) Hpos).
    rewrite Hratio, Qcmult_1_l. apply num_le. lia. }
  assert (0 ≤ JS.num 100)%Qc as H100 by discriminate.
  split.
  - replace 0%Qc with (0 * JS.num 100)%Qc by ring.
    by apply Qcmult_le_compat_r.
  - replace (JS.num 100) with (1 * JS.num 100)%Qc at 2 by ring.
    by apply Qcmult_le_compat_r.
Qed.

End dashboard_facts.

(** X15.  The dashboard never shows more completed plus flagged sheets than
    sheets, and the value of its progress bar lies between 0 and 100. *)
Theorem dashboard_counts_are_consistent (sheets : list string)
    (results : list Qc) :
  let stats := OMRDashboard.statsOf sheets results in
  0 ≤ OMRDashboard.completedSheets stats
  ∧ 0 ≤ OMRDashboard.flaggedSheets stats
  ∧ OMRDashboard.completedSheets stats + OMRDashboard.flaggedSheets stats
    ≤ OMRDashboard.totalSheets stats
  ∧ (0 ≤ OMRDashboard.progressValue stats)%Qc
  ∧ (OMRDashboard.progressValue stats ≤ JS.num 100)%Qc.
Proof.
  intros stats. subst stats.
  unfold OMRDashboard.statsOf, OMRDashboard.progressValue.
  cbn [OMRDashboard.completedSheets OMRDashboard.flaggedSheets
       OMRDashboard.totalSheets].
  pose proof (count_two_statuses "completed" "flagged" sheets) as Hsum.
  set (completed := length (filter (λ status, status = "completed") sheets)) in *.
  set (flagged := length (filter (λ status, status = "flagged") sheets)) in *.
  assert (completed + flagged ≤ length sheets)%nat as Hle by (by apply Hsum).
  split; [lia|]. split; [lia|]. split; [lia|].
  destruct (Z.ltb_spec 0 (Z.of_nat (length sheets))) as [Hpos|Hzero].
  - apply ratio_percentage; lia.
  - split; discriminate.
Qed.

(** X16.  The average score of the dashboard is the average score of the
    analytics view for the same result rows, also when there is none. *)
Theorem dashboard_average_is_analytics_average (env : DateEnv.t) (today : Z)
    (sheets : list string) (results : list ResultRow.t) :
  OMRDashboard.averageScore
    (OMRDashboard.statsOf sheets (ResultRow.percentage <$> results))
  = OMRAnalytics.averageScore (OMRAnalytics.analyticsOf env today results).
Proof.
  destruct results as [|first others].
  - unfold OMRDashboard.statsOf, OMRAnalytics.analyticsOf.
    cbn [OMRDashboard.averageScore OMRAnalytics.averageScore].
    simpl. vm_compute. reflexivity.
  - unfold OMRDashboard.statsOf, OMRAnalytics.analyticsOf.
    cbn [OMRDashboard.averageScore OMRAnalytics.averageScore].
    rewrite length_fmap. cbn [length Nat.ltb Nat.leb]. reflexivity.
Qed.

Section loadSheets_facts.
Import LoadSheets.

Lemma find_None (id : string) (resultsData : list OmrResult.t) :
  find id resultsData = None
  ↔ ∀ row, row ∈ resultsData → OmrResult.sheet_id row ≠ id.
Proof.
  induction resultsData as [|result rest IH]; simpl.
  - split; [|done]. intros _ row Hin. by apply elem_of_nil in Hin.
  - case_decide as Hid.
    + split; [done|]. intros Hall. exfalso. by apply (Hall result); [left|].
    + rewrite IH. split.
      * intros Hall row [->|Hin]%elem_of_cons; [done|by apply Hall].
      * intros Hall row Hin. apply Hall. by right.
Qed.

Lemma find_Some (id : string) (resultsData : list OmrResult.t)
    (row : OmrResult.t) :
  find id resultsData = Some row
  ↔ ∃ k, resultsData !! k = Some row ∧ OmrResult.sheet_id row = id
         ∧ ∀ j earlier, (j < k)%nat → resultsData !! j = Some earlier →
                        OmrResult.sheet_id earlier ≠ id.
Proof.
  revert row. induction resultsData as [|result rest IH]; intros row; simpl.
  - split; [done|]. by intros (k & Hk & _).
  - case_decide as Hid.
    + split.
      * intros [= <-]. exists 0%nat. split; [done|]. split; [done|]. lia.
      * intros ([|k] & Hk & Hrow & Hfirst).
        { simpl in Hk. by injection Hk as <-. }
        exfalso. by apply (Hfirst 0%nat result); [lia| |].
    + rewrite IH. split.
      * intros (k & Hk & Hrow & Hfirst). exists (S k).
        split; [done|]. split; [done|].
        intros [|j] earlier Hj Hearlier.
        { simpl in Hearlier. by injection Hearlier as <-. }
        apply (Hfirst j); [lia|done].
      * intros ([|k] & Hk & Hrow & Hfirst).
        { simpl in Hk. injection Hk as ->. done. }
        exists k. split; [done|]. split; [done|].
        intros j earlier Hj Hearlier. apply (Hfirst (S j)); [lia|done].
Qed.

End loadSheets_facts.

(** X17.  [loadSheets] keeps the sheets in the order of the query and gives
    each one the first result row whose [sheet_id] is the sheet's id: a
    sheet has no result exactly when no row refers to it, and a later row
    for the same sheet is never shown. *)
Theorem loaded_sheet_shows_first_result (sheetsData : list OMRSheet.t)
    (resultsData : list OmrResult.t) :
  ∃ sheets,
    LoadSheets.loadSheets None None (Some sheetsData) (Some resultsData)
    = Some sheets
    ∧ OMRSheet.id <$> sheets = OMRSheet.id <$> sheetsData
    ∧ ∀ i loaded, sheets !! i = Some loaded →
        (OMRSheet.result loaded = None
         ↔ ∀ row, row ∈ resultsData →
                  OmrResult.sheet_id row ≠ OMRSheet.id loaded)
        ∧ ∀ result, OMRSheet.result loaded = Some result →
            ∃ k row,
              resultsData !! k = Some row
              ∧ OmrResult.sheet_id row = OMRSheet.id loaded
              ∧ result = LoadSheets.resultOf row
              ∧ ∀ j earlier, (j < k)%nat → resultsData !! j = Some earlier →
                  OmrResult.sheet_id earlier ≠ OMRSheet.id loaded.
Proof.
  eexists. split; [reflexivity|]. cbn [default from_option id]. split.
  - rewrite <- list_fmap_compose. by apply list_fmap_ext.
  - intros i loaded Hloaded.
    apply list_lookup_fmap_Some in Hloaded as (sheet & -> & Hsheet).
    cbn [LoadSheets.withResult OMRSheet.result OMRSheet.id]. split.
    + rewrite fmap_None. apply find_None.
    + intros result Hresult.
      apply fmap_Some in Hresult as (row & Hfind & ->).
      apply find_Some in Hfind as (k & Hk & Hrow & Hfirst).
      by exists k, row.
Qed.

(** X18.  A sheet that no result row refers to (a sheet uploaded while no
    answer key existed for its version, say) is exported with each of its
    eleven numeric cells empty. *)
Theorem sheet_without_result_row_exports_empty (dateOf : Z → string)
    (resultsData : list OmrResult.t) (sheet : OMRSheet.t)
    (column : OMRResults.NumericColumn) (i : nat) :
  (∀ row, row ∈ resultsData → OmrResult.sheet_id row ≠ OMRSheet.id sheet) →
  OMRResults.columnIndex column = Some i →
  OMRResults.csvRow dateOf (LoadSheets.withResult resultsData sheet) !! i
  = Some (OMRResults.CellString "").
Proof.
  intros Hnone Hcolumn. apply find_None in Hnone.
  unfold LoadSheets.withResult. rewrite Hnone.
  by apply (csvRow_without_result dateOf sheet column).
Qed.

Lemma sheet_without_result_row_exports_empty_witness :
  OMRResults.csvRow (λ _, "1/1/1970")
    (LoadSheets.withResult [] (sheetWith None)) !! 6%nat
  = Some (OMRResults.CellString "").
Proof.
  assert (∀ row : OmrResult.t, row ∈ [] →
            OmrResult.sheet_id row ≠ OMRSheet.id (sheetWith None)) as Hnone.
  { intros row Hin. by apply elem_of_nil in Hin. }
  exact (sheet_without_result_row_exports_empty (λ _, "1/1/1970") []
           (sheetWith None) OMRResults.Percentage 6%nat Hnone eq_refl).
Defined.

Section queue_facts.
Import OMRUpload UploadQueue.

Lemma rejection_None (file : File.t) :
  rejection file = None
  ↔ File.type file ∈ validTypes ∧ File.size file ≤ 20971520.
Proof.
  unfold rejection, maxSize.
  destruct (decide (File.type file ∈ validTypes)) as [Hin|Hout].
  - rewrite bool_decide_eq_true_2 by done. cbn [negb].
    destruct (Z.ltb_spec (20 * 1024 * 1024) (File.size file)) as [Hbig|Hok].
    + split; [done|]. intros [_ Hsize]. lia.
    + split; [|done]. intros _. split; [done|lia].
  - rewrite bool_decide_eq_false_2 by done. cbn [negb].
    split; [done|]. by intros [? _].
Qed.

Lemma rejection_is_toast (file : File.t) (e : Effect) :
  rejection file = Some e → ∃ title description, e = Toast title description.
Proof.
  unfold rejection. intros He.
  destruct (negb _); [injection He as <-; eauto|].
  destruct (_ <? _); [injection He as <-; eauto|done].
Qed.

Lemma rejections_and_accepted (fileList : list File.t) :
  (length (filter (λ file, rejection file = None) fileList)
   + length (omap rejection fileList) = length fileList)%nat.
Proof.
  induction fileList as [|file fileList IH]; [done|].
  rewrite filter_cons. cbn [omap list_omap].
  destruct (rejection file) as [toast|] eqn:Hrej.
  - rewrite decide_False by done. cbn [length]. lia.
  - rewrite decide_True by done. cbn [length]. lia.
Qed.

Lemma Array_map_fmap {A B} (f : A → Rand B) (g : B → A) :
  (∀ x pos, g (f x pos).1 = x) →
  ∀ xs pos, g <$> (Array_map f xs pos).1 = xs.
Proof.
  intros Hf. induction xs as [|x xs IH]; intros pos; [done|].
  simpl. unfold mbind, Rand_bind.
  pose proof (Hf x pos) as Hx. destruct (f x pos) as [y pos1].
  specialize (IH pos1). destruct (Array_map f xs pos1) as [ys pos2].
  unfold mret, Rand_ret. cbn [fst] in *. by rewrite fmap_cons, Hx, IH.
Qed.

Lemma Array_map_Forall {A B} (f : A → Rand B) (P : B → Prop) :
  (∀ x pos, P (f x pos).1) →
  ∀ xs pos, Forall P (Array_map f xs pos).1.
Proof.
  intros Hf. induction xs as [|x xs IH]; intros pos; [by constructor|].
  simpl. unfold mbind, Rand_bind.
  pose proof (Hf x pos) as Hx. destruct (f x pos) as [y pos1].
  specialize (IH pos1). destruct (Array_map f xs pos1) as [ys pos2].
  simpl in *. by constructor.
Qed.

(** *** The queue after [uploadFiles] *)

Lemma update_fresh (id : string) (change : UploadedFile.t → UploadedFile.t)
    (files : list UploadedFile.t) :
  id ∉ UploadedFile.id <$> files → update id change files = files.
Proof.
  intros Hfresh. unfold update. induction files as [|f files IH]; [done|].
  rewrite fmap_cons in Hfresh. apply not_elem_of_cons in Hfresh as [Hf Hfiles].
  rewrite fmap_cons, decide_False by done. by rewrite IH.
Qed.

Lemma update_middle (change : UploadedFile.t → UploadedFile.t)
    (processed : list UploadedFile.t) (f : UploadedFile.t)
    (rest : list UploadedFile.t) :
  NoDup (UploadedFile.id <$> processed ++ f :: rest) →
  update (UploadedFile.id f) change (processed ++ f :: rest)
  = processed ++ change f :: rest.
Proof.
  rewrite fmap_app, fmap_cons. intros Hnodup.
  apply NoDup_app in Hnodup as (_ & Hdisjoint & Hrest).
  apply NoDup_cons in Hrest as [Hfresh _].
  assert (update (UploadedFile.id f) change (processed ++ f :: rest)
          = update (UploadedFile.id f) change processed
            ++ update (UploadedFile.id f) change (f :: rest)) as ->.
  { unfold update. by rewrite fmap_app. }
  rewrite update_fresh.
  - f_equal. unfold update at 1. rewrite fmap_cons, decide_True by done.
    f_equal. by apply update_fresh.
  - intros Hin. apply (Hdisjoint _ Hin). left.
Qed.

Lemma update_update (id : string) (first second : UploadedFile.t → UploadedFile.t)
    (files : list UploadedFile.t) :
  (∀ f, UploadedFile.id (first f) = UploadedFile.id f) →
  update id second (update id first files)
  = update id (second ∘ first) files.
Proof.
  intros Hid. unfold update. rewrite <- list_fmap_compose.
  apply list_fmap_ext. intros i f _. simpl.
  destruct (decide (UploadedFile.id f = id)) as [Hf|Hf].
  - by rewrite decide_True by (by rewrite Hid).
  - by rewrite decide_False.
Qed.

Lemma settled_id (reply : Reply.t) (f : UploadedFile.t) :
  UploadedFile.id (settled reply f) = UploadedFile.id f
  ∧ UploadedFile.file (settled reply f) = UploadedFile.file f.
Proof.
  unfold settled. by destruct (Reply.upload reply), (Reply.sheet reply).
Qed.

(** One pass of the loop changes the entries with the id of its file, and
    no other entry. *)
Lemma uploadOne_files draws table form reply fileUpload files pos :
  (uploadOne draws table form reply fileUpload files pos).1.1
  = update (UploadedFile.id fileUpload) (settled reply) files.
Proof.
  unfold uploadOne, settled, failed. cbv zeta.
  destruct (Reply.upload reply) as [path|];
    [destruct (Reply.sheet reply) as [sheetId|]|].
  - unfold mbind, Rand_bind, mret, Rand_ret.
    destruct (simulateOMRProcessing _ _ _ _ pos) as [writes pos1].
    cbn [fst]. by rewrite !update_update.
  - unfold mret, Rand_ret. cbn [fst]. by rewrite !update_update.
  - unfold mret, Rand_ret. cbn [fst]. by rewrite !update_update.
Qed.

Lemma uploadLoop_files draws table form replies (rest : list UploadedFile.t) :
  ∀ (processed : list UploadedFile.t) pos,
    NoDup (UploadedFile.id <$> processed ++ rest) →
    (uploadLoop draws table form replies (length processed) rest (processed ++ rest) pos).1.1
    = processed
      ++ imap (λ k f,
                 if decide (UploadedFile.status f ≠ Pending) then f
                 else settled (replies (length processed + k)%nat) f)
              rest.
Proof.
  induction rest as [|f rest IH]; intros processed pos Hnodup; [done|].
  cbn [uploadLoop]. rewrite imap_cons, Nat.add_0_r.
  assert (∀ g : UploadedFile.t,
            UploadedFile.id g = UploadedFile.id f →
            processed ++ g :: rest = (processed ++ [g]) ++ rest
            ∧ S (length processed) = length (processed ++ [g])
            ∧ NoDup (UploadedFile.id <$> (processed ++ [g]) ++ rest)) as Hnext.
  { intros g Hg. split; [by rewrite <- app_assoc|]. split.
    - rewrite length_app. simpl. lia.
    - rewrite <- app_assoc. simpl.
      rewrite fmap_app, fmap_cons, Hg, <- fmap_cons, <- fmap_app. done. }
  assert (imap (λ k f0,
            if decide (UploadedFile.status f0 ≠ Pending) then f0
            else settled (replies (length processed + S k)%nat) f0) rest
          = imap (λ k f0,
            if decide (UploadedFile.status f0 ≠ Pending) then f0
            else settled (replies (S (length processed) + k)%nat) f0) rest) as Hshift.
  { apply imap_ext. intros k f0 _. simpl.
    by replace (length processed + S k)%nat with (S (length processed + k)) by lia. }
  case_decide as Hpending.
  - destruct (Hnext f eq_refl) as (Hfiles & Hindex & Hnodup').
    rewrite Hfiles, Hindex, IH by done.
    rewrite <- app_assoc. simpl. f_equal. f_equal.
    unfold compose. rewrite Hshift. by rewrite Hindex.
  - unfold mbind, Rand_bind, mret, Rand_ret.
    pose proof (uploadOne_files draws table form (replies (length processed)) f
                  (processed ++ f :: rest) pos) as Hone.
    destruct (uploadOne _ _ _ _ _ _ pos) as [one pos1].
    cbn [fst] in Hone. rewrite update_middle in Hone by done.
    destruct (Hnext (settled (replies (length processed)) f)
                (proj1 (settled_id _ _))) as (Hfiles & Hindex & Hnodup').
    rewrite Hone, Hfiles, Hindex.
    specialize (IH (processed ++ [settled (replies (length processed)) f]) pos1 Hnodup').
    destruct (uploadLoop _ _ _ _ _ _ _ pos1) as [others pos2].
    cbn [fst] in *. rewrite IH, <- app_assoc. simpl. f_equal. f_equal.
    unfold compose. rewrite Hshift. by rewrite Hindex.
Qed.

(** *** What [uploadFiles] sends *)

Lemma uploadOne_effects draws table form reply fileUpload files pos :
  ∃ fileName rest,
    (uploadOne draws table form reply fileUpload files pos).1.2
    = StorageUpload fileName (UploadedFile.file fileUpload) :: rest
    ∧ Forall (λ e, isStorageUpload e = false ∧ e ≠ OnUploadComplete) rest
    ∧ (selectAnswerKeys table (Form.selectedVersion form) = [] →
       Forall (λ e, isStoreWrite e = false) rest).
Proof.
  unfold uploadOne, failed. cbv zeta.
  destruct (Reply.upload reply) as [path|];
    [destruct (Reply.sheet reply) as [sheetId|]|].
  - unfold mbind, Rand_bind, mret, Rand_ret.
    pose proof (simulateOMRProcessing_no_key draws table
                  (Form.selectedVersion form) sheetId pos) as Hnone.
    destruct (simulateOMRProcessing _ _ _ _ pos) as [writes pos1].
    cbn [fst snd] in *. eexists _, _. split; [reflexivity|]. split.
    + constructor; [done|]. apply Forall_app. split.
      * apply Forall_fmap, Forall_true. done.
      * by repeat constructor.
    + intros Hsel. rewrite Hnone by done. by repeat constructor.
  - unfold mret, Rand_ret. cbn [fst snd].
    eexists _, _. split; [reflexivity|]. split; [|intros _];
      by repeat constructor.
  - unfold mret, Rand_ret. cbn [fst snd].
    eexists _, _. split; [reflexivity|]. split; [|intros _];
      by repeat constructor.
Qed.

Lemma uploadLoop_effects draws table form replies (snapshot : list UploadedFile.t) :
  ∀ index files pos,
    let effects :=
      (uploadLoop draws table form replies index snapshot files pos).1.2 in
    length (filter (λ e, isStorageUpload e = true) effects)
    = length (filter (λ f, UploadedFile.status f = Pending) snapshot)
    ∧ (OnUploadComplete ∉ effects)
    ∧ (selectAnswerKeys table (Form.selectedVersion form) = [] →
       Forall (λ e, isStoreWrite e = false) effects).
Proof.
  induction snapshot as [|f rest IH]; intros index files pos effects.
  { subst effects. simpl. split; [done|]. split; [|done].
    intros Hin. by apply elem_of_nil in Hin. }
  subst effects. cbn [uploadLoop]. rewrite filter_cons.
  destruct (decide (UploadedFile.status f = Pending)) as [Hpending|Hpending].
  - rewrite decide_False by (by intros Hnot).
    unfold mbind, Rand_bind, mret, Rand_ret.
    destruct (uploadOne_effects draws table form (replies index) f files pos)
      as (fileName & sent & Hone & Hsent & Hnokey).
    destruct (uploadOne _ _ _ _ _ _ pos) as [one pos1].
    cbn [fst snd] in Hone.
    destruct (IH (S index) one.1 pos1) as (Hcount & Hlast & Hnokey').
    destruct (uploadLoop _ _ _ _ _ _ _ pos1) as [others pos2].
    cbn [fst snd] in *. rewrite Hone.
    split; [|split].
    + rewrite <- app_comm_cons, filter_cons, decide_True by done.
      rewrite filter_app. rewrite (filter_none _ sent).
      * cbn [length app]. by rewrite Hcount.
      * intros e He. rewrite Forall_forall in Hsent.
        destruct (Hsent e He) as [-> _]. done.
    + intros Hin. rewrite <- app_comm_cons in Hin.
      apply elem_of_cons in Hin as [?|Hin]; [done|].
      apply elem_of_app in Hin as [Hin|Hin]; [|done].
      rewrite Forall_forall in Hsent. by destruct (Hsent _ Hin).
    + intros Hsel. rewrite <- app_comm_cons. constructor; [done|].
      apply Forall_app. split; [by apply Hnokey|by apply Hnokey'].
  - rewrite decide_True by done. apply IH.
Qed.

Lemma uploadOne_sheets draws table form reply fileUpload files pos :
  Forall (λ e, ∀ row, e = InsertSheet row → SheetInsert.status row = "uploaded")
    (uploadOne draws table form reply fileUpload files pos).1.2.
Proof.
  unfold uploadOne, failed. cbv zeta.
  destruct (Reply.upload reply) as [path|];
    [destruct (Reply.sheet reply) as [sheetId|]|].
  - unfold mbind, Rand_bind, mret, Rand_ret.
    destruct (simulateOMRProcessing _ _ _ _ pos) as [writes pos1].
    cbn [fst snd]. repeat (apply Forall_app; split);
      try (repeat constructor; intros row [= <-]; done);
      try (repeat constructor; done).
    apply Forall_fmap, Forall_true. done.
  - unfold mret, Rand_ret. cbn [fst snd].
    repeat constructor; try done. by intros row [= <-].
  - unfold mret, Rand_ret. cbn [fst snd]. by repeat constructor.
Qed.

Lemma uploadLoop_sheets draws table form replies (snapshot : list UploadedFile.t) :
  ∀ index files pos,
    Forall (λ e, ∀ row, e = InsertSheet row → SheetInsert.status row = "uploaded")
      (uploadLoop draws table form replies index snapshot files pos).1.2.
Proof.
  induction snapshot as [|f rest IH]; intros index files pos; [by constructor|].
  cbn [uploadLoop]. case_decide as Hpending; [apply IH|].
  unfold mbind, Rand_bind, mret, Rand_ret.
  pose proof (uploadOne_sheets draws table form (replies index) f files pos)
    as Hone.
  destruct (uploadOne _ _ _ _ _ _ pos) as [one pos1].
  specialize (IH (S index) one.1 pos1).
  destruct (uploadLoop _ _ _ _ _ _ _ pos1) as [others pos2].
  cbn [fst snd] in *. apply Forall_app. by split.
Qed.

End queue_facts.

(** X19.  [handleFiles] leaves the queued entries as they are and appends,
    in order, one pending entry (progress 0, no error) for each offered
    file whose type is JPEG, JPG, PNG or PDF and whose size is at most
    20971520 bytes; every other file gets exactly one toast, so the new
    entries and the toasts together are as many as the offered files. *)
Theorem handleFiles_queues_or_reports_each_file (toString36 : Qc → string)
    (draws : nat → Qc) (fileList : list UploadQueue.File.t)
    (prev : list UploadQueue.UploadedFile.t) (pos : nat) :
  let run := (UploadQueue.handleFiles toString36 draws fileList prev pos).1 in
  ∃ newFiles,
    run.1 = prev ++ newFiles
    ∧ UploadQueue.UploadedFile.file <$> newFiles
      = filter (λ file,
                  UploadQueue.File.type file ∈ UploadQueue.validTypes
                  ∧ UploadQueue.File.size file ≤ 20971520)
               fileList
    ∧ Forall (λ f,
                UploadQueue.UploadedFile.status f = UploadQueue.Pending
                ∧ UploadQueue.UploadedFile.progress f = 0
                ∧ UploadQueue.UploadedFile.error f = None)
             newFiles
    ∧ (length newFiles + length run.2 = length fileList)%nat
    ∧ Forall (λ e, ∃ title description, e = UploadQueue.Toast title description)
             run.2.
Proof.
  intros run. subst run. unfold UploadQueue.handleFiles.
  unfold mbind, OMRUpload.Rand_bind, mret, OMRUpload.Rand_ret.
  set (entry := λ file : UploadQueue.File.t, _).
  set (accepted := filter (λ file, UploadQueue.rejection file = None) fileList).
  pose proof (Array_map_fmap entry UploadQueue.UploadedFile.file
                (λ file pos0, eq_refl) accepted pos) as Hfiles.
  pose proof (Array_map_Forall entry
                (λ f, UploadQueue.UploadedFile.status f = UploadQueue.Pending
                      ∧ UploadQueue.UploadedFile.progress f = 0
                      ∧ UploadQueue.UploadedFile.error f = None)
                (λ file pos0, conj eq_refl (conj eq_refl eq_refl))
                accepted pos) as Hpending.
  destruct (UploadQueue.Array_map entry accepted pos) as [newFiles pos1].
  cbn [fst snd] in *. exists newFiles.
  split; [done|]. split.
  { rewrite Hfiles. unfold accepted. apply filter_agree.
    intros file _. apply rejection_None. }
  split; [done|]. split.
  - rewrite <- (length_fmap UploadQueue.UploadedFile.file), Hfiles.
    apply rejections_and_accepted.
  - apply Forall_forall. intros e He.
    apply list_elem_of_omap in He as (file & _ & Hrej).
    by apply (rejection_is_toast file).
Qed.

(** X20.  When a version is selected and the ids of the queue are distinct,
    [uploadFiles] leaves every entry in its place with its file and id; an
    entry that was not pending is unchanged; a pending entry ends completed
    with progress 100 when the storage and the sheet insert both succeed,
    and otherwise ends in error "Upload failed" with progress 10 (storage
    failed) or 50 (insert failed).  A failure of one file changes nothing
    for the others. *)
Theorem upload_settles_each_pending_file (draws : nat → Qc)
    (table : list AnswerKey.t) (form : UploadQueue.Form.t)
    (replies : nat → UploadQueue.Reply.t)
    (files : list UploadQueue.UploadedFile.t) (pos : nat) :
  UploadQueue.Form.selectedVersion form ≠ EmptyString →
  NoDup (UploadQueue.UploadedFile.id <$> files) →
  let queue := (UploadQueue.uploadFiles draws table form replies files pos).1.1 in
  length queue = length files
  ∧ ∀ i before, files !! i = Some before →
      ∃ after,
        queue !! i = Some after
        ∧ UploadQueue.UploadedFile.file after = UploadQueue.UploadedFile.file before
        ∧ UploadQueue.UploadedFile.id after = UploadQueue.UploadedFile.id before
        ∧ match UploadQueue.UploadedFile.status before with
          | UploadQueue.Pending =>
              match UploadQueue.Reply.upload (replies i),
                    UploadQueue.Reply.sheet (replies i) with
              | Some _, Some _ =>
                  UploadQueue.UploadedFile.status after = UploadQueue.Completed
                  ∧ UploadQueue.UploadedFile.progress after = 100
                  ∧ UploadQueue.UploadedFile.error after
                    = UploadQueue.UploadedFile.error before
              | Some _, None =>
                  UploadQueue.UploadedFile.status after = UploadQueue.Error
                  ∧ UploadQueue.UploadedFile.progress after = 50
                  ∧ UploadQueue.UploadedFile.error after = Some "Upload failed"
              | None, _ =>
                  UploadQueue.UploadedFile.status after = UploadQueue.Error
                  ∧ UploadQueue.UploadedFile.progress after = 10
                  ∧ UploadQueue.UploadedFile.error after = Some "Upload failed"
              end
          | _ => after = before
          end.
Proof.
  intros Hversion Hnodup queue. subst queue.
  unfold UploadQueue.uploadFiles.
  rewrite isEmpty_false by done.
  unfold mbind, OMRUpload.Rand_bind, mret, OMRUpload.Rand_ret.
  pose proof (uploadLoop_files draws table form replies files [] pos Hnodup)
    as Hloop.
  cbn [app length] in Hloop.
  destruct (UploadQueue.uploadLoop _ _ _ _ _ _ _ pos) as [run pos1].
  cbn [fst] in *. rewrite Hloop. split; [by rewrite length_imap|].
  intros i before Hbefore. rewrite list_lookup_imap, Hbefore.
  cbn [fmap option_fmap option_map Nat.add]. eexists. split; [reflexivity|].
  case_decide as Hpending.
  - split; [done|]. split; [done|].
    by destruct (UploadQueue.UploadedFile.status before).
  - destruct (settled_id (replies i) before) as [Hid Hfile].
    split; [done|]. split; [done|].
    destruct (UploadQueue.UploadedFile.status before) eqn:Hstatus;
      try (exfalso; first [discriminate Hpending
                          |apply Hpending; discriminate]).
    unfold UploadQueue.settled.
    by destruct (UploadQueue.Reply.upload (replies i)),
                (UploadQueue.Reply.sheet (replies i)).
Qed.

Lemma upload_settles_each_pending_file_witness :
  let queue :=
    (UploadQueue.uploadFiles halves [] versionA acceptingStore twoFiles 0%nat).1.1 in
  length queue = length twoFiles
  ∧ ∀ i before, twoFiles !! i = Some before →
      ∃ after,
        queue !! i = Some after
        ∧ UploadQueue.UploadedFile.file after = UploadQueue.UploadedFile.file before
        ∧ UploadQueue.UploadedFile.id after = UploadQueue.UploadedFile.id before
        ∧ match UploadQueue.UploadedFile.status before with
          | UploadQueue.Pending =>
              match UploadQueue.Reply.upload (acceptingStore i),
                    UploadQueue.Reply.sheet (acceptingStore i) with
              | Some _, Some _ =>
                  UploadQueue.UploadedFile.status after = UploadQueue.Completed
                  ∧ UploadQueue.UploadedFile.progress after = 100
                  ∧ UploadQueue.UploadedFile.error after
                    = UploadQueue.UploadedFile.error before
              | Some _, None =>
                  UploadQueue.UploadedFile.status after = UploadQueue.Error
                  ∧ UploadQueue.UploadedFile.progress after = 50
                  ∧ UploadQueue.UploadedFile.error after = Some "Upload failed"
              | None, _ =>
                  UploadQueue.UploadedFile.status after = UploadQueue.Error
                  ∧ UploadQueue.UploadedFile.progress after = 10
                  ∧ UploadQueue.UploadedFile.error after = Some "Upload failed"
              end
          | _ => after = before
          end.
Proof.
  assert (UploadQueue.Form.selectedVersion versionA ≠ EmptyString) as Hversion
    by discriminate.
  assert (NoDup (UploadQueue.UploadedFile.id <$> twoFiles)) as Hnodup.
  { apply (bool_decide_unpack _). vm_compute. exact I. }
  exact (upload_settles_each_pending_file halves [] versionA acceptingStore
           twoFiles 0%nat Hversion Hnodup).
Defined.



(** X22.  When the table holds no answer key of the selected version,
    [uploadFiles] writes no result row and no sheet status, yet (with
    distinct ids) every pending file whose upload and sheet insert succeed
    is shown completed with progress 100: the sheet is stored unscored and
    its row keeps the status "uploaded". *)
Theorem upload_without_answer_key_scores_nothing (draws : nat → Qc)
    (table : list AnswerKey.t) (form : UploadQueue.Form.t)
    (replies : nat → UploadQueue.Reply.t)
    (files : list UploadQueue.UploadedFile.t) (pos : nat) :
  UploadQueue.Form.selectedVersion form ≠ EmptyString →
  OMRUpload.selectAnswerKeys table (UploadQueue.Form.selectedVersion form) = [] →
  NoDup (UploadQueue.UploadedFile.id <$> files) →
  let run := (UploadQueue.uploadFiles draws table form replies files pos).1 in
  (∀ write, UploadQueue.StoreWrite write ∉ run.2)
  ∧ (∀ row, UploadQueue.InsertSheet row ∈ run.2 →
            UploadQueue.SheetInsert.status row = "uploaded")
  ∧ ∀ i before,
      files !! i = Some before →
      UploadQueue.UploadedFile.status before = UploadQueue.Pending →
      is_Some (UploadQueue.Reply.upload (replies i)) →
      is_Some (UploadQueue.Reply.sheet (replies i)) →
      ∃ after,
        run.1 !! i = Some after
        ∧ UploadQueue.UploadedFile.status after = UploadQueue.Completed
        ∧ UploadQueue.UploadedFile.progress after = 100.
Proof.
  intros Hversion Hnokey Hnodup run. subst run.
  unfold UploadQueue.uploadFiles.
  rewrite isEmpty_false by done.
  unfold mbind, OMRUpload.Rand_bind, mret, OMRUpload.Rand_ret.
  pose proof (uploadLoop_files draws table form replies files [] pos Hnodup)
    as Hloop.
  destruct (uploadLoop_effects draws table form replies files 0%nat files pos)
    as (_ & _ & Hwrites).
  pose proof (uploadLoop_sheets draws table form replies files 0%nat files pos)
    as Hsheets.
  cbn [app length] in Hloop.
  destruct (UploadQueue.uploadLoop _ _ _ _ _ _ _ pos) as [loop pos1].
  cbn [fst snd] in *. split; [|split].
  - intros write Hin. apply elem_of_app in Hin as [Hin|Hin].
    + specialize (Hwrites Hnokey). rewrite Forall_forall in Hwrites.
      by specialize (Hwrites _ Hin).
    + by apply list_elem_of_singleton in Hin.
  - intros row Hin. apply elem_of_app in Hin as [Hin|Hin].
    + rewrite Forall_forall in Hsheets. by apply (Hsheets _ Hin).
    + by apply list_elem_of_singleton in Hin.
  - intros i before Hbefore Hpending [path Hpath] [sheetId Hsheet].
    rewrite Hloop, list_lookup_imap, Hbefore.
    cbn [fmap option_fmap option_map Nat.add]. eexists. split; [reflexivity|].
    rewrite decide_False by (by intros Hnot).
    unfold UploadQueue.settled. by rewrite Hpath, Hsheet.
Qed.

Lemma upload_without_answer_key_scores_nothing_witness :
  let run :=
    (UploadQueue.uploadFiles halves [] versionA acceptingStore twoFiles 0%nat).1 in
  (∀ write, UploadQueue.StoreWrite write ∉ run.2)
  ∧ (∀ row, UploadQueue.InsertSheet row ∈ run.2 →
            UploadQueue.SheetInsert.status row = "uploaded")
  ∧ ∀ i before,
      twoFiles !! i = Some before →
      UploadQueue.UploadedFile.status before = UploadQueue.Pending →
      is_Some (UploadQueue.Reply.upload (acceptingStore i)) →
      is_Some (UploadQueue.Reply.sheet (acceptingStore i)) →
      ∃ after,
        run.1 !! i = Some after
        ∧ UploadQueue.UploadedFile.status after = UploadQueue.Completed
        ∧ UploadQueue.UploadedFile.progress after = 100.
Proof.
  assert (UploadQueue.Form.selectedVersion versionA ≠ EmptyString) as Hversion
    by discriminate.
  assert (OMRUpload.selectAnswerKeys [] (UploadQueue.Form.selectedVersion versionA)
          = []) as Hnokey by reflexivity.
  assert (NoDup (UploadQueue.UploadedFile.id <$> twoFiles)) as Hnodup.
  { apply (bool_decide_unpack _). vm_compute. exact I. }
  exact (upload_without_answer_key_scores_nothing halves [] versionA
           acceptingStore twoFiles 0%nat Hversion Hnokey Hnodup).
Defined.

Section counting_facts.









End counting_facts.



Section split_facts.
Import JSString.

Lemma split_not_empty (sep : ascii) (s : string) : split sep s ≠ [].
Proof.
  destruct s as [|c s]; simpl; [done|].
  destruct (Ascii.eqb c sep); [done|]. by destruct (split sep s).
Qed.

(** Splitting a text at commas splits each side of a comma on its own. *)
Lemma split_at_comma (a b : string) :
  split ","%char (a +:+ "," +:+ b) = split ","%char a ++ split ","%char b.
Proof.
  induction a as [|c a IH]; [done|].
  rewrite append_cons. simpl split. rewrite IH.
  destruct (Ascii.eqb c ","%char); [done|].
  pose proof (split_not_empty ","%char a) as Hne.
  by destruct (split ","%char a).
Qed.

End split_facts.

(** X24.  The answers of a text are read piece by piece between the
    commas: the answers of [a,b] are the answers of [a] followed by the
    answers of [b], and an empty text holds no answer, so empty pieces (a
    doubled or a trailing comma) are skipped and not counted among the 100
    answers. *)
Theorem answers_are_read_between_commas (a b : string) :
  AnswerKeyManager.parseAnswers (a +:+ "," +:+ b)
  = AnswerKeyManager.parseAnswers a ++ AnswerKeyManager.parseAnswers b
  ∧ AnswerKeyManager.parseAnswers (a +:+ ",") = AnswerKeyManager.parseAnswers a
  ∧ AnswerKeyManager.parseAnswers ("," +:+ b) = AnswerKeyManager.parseAnswers b.
Proof.
  assert (∀ x y, AnswerKeyManager.parseAnswers (x +:+ "," +:+ y)
                 = AnswerKeyManager.parseAnswers x
                   ++ AnswerKeyManager.parseAnswers y) as Hsplit.
  { intros x y. unfold AnswerKeyManager.parseAnswers.
    by rewrite split_at_comma, omap_app. }
  split; [apply Hsplit|]. split.
  - change (a +:+ ",") with (a +:+ "," +:+ "").
    rewrite Hsplit. apply app_nil_r.
  - change ("," +:+ b) with ("" +:+ "," +:+ b). by rewrite Hsplit.
Qed.

Section range_input_facts.
Import JSString RangeInput.




End range_input_facts.


